(** * Hydraulic and thermal precalculation of a district heating network

    Shallow embedding of [topotherm/precalculation_hydraulic.py].

    Numbers.  Python and numpy floats are idealised as real numbers: every
    arithmetic operation is the exact real one.  An operation that leaves the
    reals (a division by zero, the logarithm of a non-positive number, the
    square root of a negative one) ends the computation with an [error]; the
    model does not follow numpy through [inf] and [nan].

    Settings.  The module [topotherm.settings] (classes [Water], [Ground],
    [Piping]) is not part of the embedded source; its constants are fields of
    the records [Water.t], [Ground.t] and [Piping.t], and every function
    that reads them takes the records as parameters.

    Library calls.  [scipy.optimize.fsolve] and [scipy.stats.linregress] are
    parameters of the functions that call them; a call may itself end with
    an error, which the caller does not catch. *)

From Stdlib Require Import Reals Lra Lia List ZArith Bool.
Import ListNotations.

Open Scope R_scope.

(** ** Outcomes of a Python computation *)

Module Py.

(** [ZeroDivisionError]: a division whose divisor is zero (Python scalars
    raise it; numpy operands give [inf] or [nan] with a RuntimeWarning).
    [InvalidValue]: a numpy function applied outside its real domain
    ([nan] or [-inf] with a RuntimeWarning).
    [ValueError]: operands whose shapes cannot be broadcast together, or
    degenerate regression input.
    [IndexError]: assignment past the end of an array.
    [DomainError] and [ConvergenceError] are the two errors of the
    specification's error taxonomy. *)
Inductive error : Type :=
| ZeroDivisionError
| InvalidValue
| ValueError
| IndexError
| DomainError
| ConvergenceError.

Inductive result (A : Type) : Type :=
| Ok (a : A)
| Err (e : error).

Arguments Ok {A} a.
Arguments Err {A} e.

Definition bind {A B : Type} (m : result A) (k : A -> result B) : result B :=
  match m with
  | Ok a => k a
  | Err e => Err e
  end.

Definition is_ok {A : Type} (m : result A) : Prop :=
  exists a, m = Ok a.

Definition raises {A : Type} (m : result A) (e : error) : Prop :=
  m = Err e.

End Py.

Import Py.

Notation "x <- m ;; k" := (bind m (fun x => k))
  (at level 61, m at next level, right associativity).

(** ** Comparisons and arithmetic as Python evaluates them *)

Definition Rltb (x y : R) : bool := if Rlt_dec x y then true else false.
Definition Rleb (x y : R) : bool := if Rle_dec x y then true else false.
Definition Rgeb (x y : R) : bool := if Rge_dec x y then true else false.
Definition Reqb (x y : R) : bool := if Req_dec_T x y then true else false.

(** [x / y] *)
Definition py_div (x y : R) : result R :=
  if Reqb y 0 then Err ZeroDivisionError else Ok (x / y).

(** [np.log] *)
Definition np_log (x : R) : result R :=
  if Rltb 0 x then Ok (ln x) else Err InvalidValue.

(** [np.log10] *)
Definition np_log10 (x : R) : result R :=
  if Rltb 0 x then Ok (ln x / ln 10) else Err InvalidValue.

(** [np.sqrt] *)
Definition np_sqrt (x : R) : result R :=
  if Rleb 0 x then Ok (sqrt x) else Err InvalidValue.

(** [np.exp] *)
Definition np_exp (x : R) : result R := Ok (exp x).

(** [x ** y] for a float exponent [y > 0]: a negative base has no real
    power. *)
Definition py_pow (x y : R) : result R :=
  if Rltb x 0 then Err InvalidValue
  else if Reqb x 0 then Ok 0
  else Ok (Rpower x y).

(** [x ** -2] *)
Definition py_pow_m2 (x : R) : result R :=
  if Reqb x 0 then Err ZeroDivisionError else Ok (/ (x * x)).

(** ** Arrays *)

(** A fallible function applied to every element of a list, in order. *)
Fixpoint map_result {A B : Type} (f : A -> result B) (xs : list A)
  : result (list B) :=
  match xs with
  | [] => Ok []
  | x :: xs' =>
      v <- f x ;;
      vs <- map_result f xs' ;;
      Ok (v :: vs)
  end.

(** ** Settings *)

Module Water.
Record t : Type := {
  density : R;
  dynamic_viscosity : R;
  heat_capacity_cp : R
}.
End Water.

Module Ground.
Record t : Type := {
  thermal_conductivity : R
}.
End Ground.

Module Piping.
Record t : Type := {
  diameter : list R;
  ratio : list R;
  cost : list R;
  number_diameter : nat;
  max_pr_loss : R;
  roughness : R;
  thermal_conductivity : R
}.
End Piping.

(** ** Control curve *)

Definition determine_feed_line_temp
  (ambient_temperature temp_sup_high temp_sup_low temp_turn_high
   temp_turn_low : R) : result R :=
  if Rltb ambient_temperature temp_turn_high then
    Ok temp_sup_high
  else if Rgeb ambient_temperature temp_turn_high
          && Rleb ambient_temperature temp_turn_low then
    q <- py_div (ambient_temperature - temp_turn_high)
                (temp_turn_low - temp_turn_high) ;;
    Ok (temp_sup_high - q * (temp_sup_high - temp_sup_low))
  else
    Ok temp_sup_low.

(** The supply temperature as a function of the ambient temperature alone,
    for a fixed regime (0 where the evaluator has no value). *)
Definition feed_line_curve (temp_sup_high temp_sup_low temp_turn_high
                            temp_turn_low : R) (T : R) : R :=
  match determine_feed_line_temp T temp_sup_high temp_sup_low
                                 temp_turn_high temp_turn_low with
  | Ok v => v
  | Err _ => 0
  end.

(** ** Results of the library calls *)

(** What [scipy.optimize.fsolve] computes: the last iterate [x] and the
    status flag [ier], which is 1 when a solution was found.  Called
    without [full_output], as the source does, it hands back [x] alone and
    reports any other status as a warning. *)
Module Fsolve.
Record t : Type := {
  x : R;
  ier : Z
}.
Definition converged (s : t) : Prop := ier s = 1%Z.
End Fsolve.

(** What [scipy.stats.linregress] returns (the fields the source reads). *)
Module Linregress.
Record t : Type := {
  slope : R;
  intercept : R;
  rvalue : R
}.
End Linregress.

(** The dictionaries under the key ['params']. *)
Module Params.
Record t : Type := {
  a : R;
  b : R;
  r2 : R
}.
End Params.

(** The dictionary returned by [regression_thermal_capacity]. *)
Module ThermalCapacity.
Record t : Type := {
  mass_flow_max : list R;
  power_flow_max : list R;
  params : Params.t;
  power_flow_max_kW : list R;
  power_flow_max_partload : Z
}.
End ThermalCapacity.

(** The dictionary returned by [regression_heat_losses]. *)
Module HeatLosses.
Record t : Type := {
  heat_loss : list R;
  params : Params.t
}.
End HeatLosses.

(** ** numpy helpers of the regression functions *)

(** Round half to even, the rounding of [np.rint]. *)
Definition round_half_even (x : R) : Z :=
  let f := Int_part x in
  let r := x - IZR f in
  if Rltb r (1 / 2) then f
  else if Rltb (1 / 2) r then (f + 1)%Z
  else if Z.even f then f else (f + 1)%Z.

(** [np.round(x, decimals)] *)
Definition np_round (x : R) (decimals : nat) : R :=
  IZR (round_half_even (x * 10 ^ decimals)) / 10 ^ decimals.

(** [np.zeros(n)] and [np.ones(n)] *)
Definition np_zeros (n : nat) : list R := repeat 0 n.
Definition np_ones (n : nat) : list R := repeat 1 n.

(** [arr[i] = v] *)
Fixpoint array_set (arr : list R) (i : nat) (v : R) : result (list R) :=
  match arr, i with
  | [], _ => Err IndexError
  | _ :: rest, O => Ok (v :: rest)
  | y :: rest, S i' => rest' <- array_set rest i' v ;; Ok (y :: rest')
  end.

(** The common length of one-dimensional shapes under broadcasting. *)
Fixpoint broadcast_shape (shapes : list nat) : result nat :=
  match shapes with
  | [] => Ok 1%nat
  | n :: rest =>
      m <- broadcast_shape rest ;;
      if Nat.eqb n m then Ok m
      else if Nat.eqb n 1 then Ok m
      else if Nat.eqb m 1 then Ok n
      else Err ValueError
  end.

(** Element [i] of an array stretched to a broadcast shape. *)
Definition stretched (xs : list R) (i : nat) : R :=
  match xs with
  | [x] => x
  | _ => nth i xs 0
  end.

(** A function of scalars applied elementwise to two or three arrays. *)
Definition broadcast2 (f : R -> R -> result R) (xs ys : list R)
  : result (list R) :=
  n <- broadcast_shape [length xs; length ys] ;;
  map_result (fun i => f (stretched xs i) (stretched ys i)) (seq 0 n).

Definition broadcast3 (f : R -> R -> R -> result R) (xs ys zs : list R)
  : result (list R) :=
  n <- broadcast_shape [length xs; length ys; length zs] ;;
  map_result (fun i => f (stretched xs i) (stretched ys i) (stretched zs i))
             (seq 0 n).

(** ** The precalculation functions *)

Section Precalculation.

Variable water : Water.t.
Variable ground : Ground.t.
Variable piping : Piping.t.

Variable fsolve : (R -> result R) -> R -> result Fsolve.t.
Variable linregress : list R -> list R -> result Linregress.t.

(** The Haaland friction factor, as [vel_calculation] computes it. *)
Definition friction_factor (diameter roughness vel : R) : result R :=
  Re <- py_div (Water.density water * vel * diameter)
               (Water.dynamic_viscosity water) ;;
  rel <- py_div roughness (37 / 10 * diameter) ;;
  rough <- py_pow rel (111 / 100) ;;
  visc <- py_div (69 / 10) Re ;;
  lg <- np_log10 (rough + visc) ;;
  py_pow_m2 (- (18 / 10) * lg).

(** The residual handed to the root finder. *)
Definition vel_calculation (diameter roughness max_spec_pressure_loss : R)
  (var : R) : result R :=
  let vel := var in
  f <- friction_factor diameter roughness vel ;;
  q <- py_div (2 * max_spec_pressure_loss * diameter)
              (f * Water.density water) ;;
  s <- np_sqrt q ;;
  Ok (vel - s).

Definition max_flow_velocity
  (vel_init diameter roughness max_spec_pressure_loss : R) : result R :=
  solution <- fsolve (vel_calculation diameter roughness
                                       max_spec_pressure_loss) vel_init ;;
  let vel_max := Fsolve.x solution in
  Ok vel_max.

Definition mass_flow (velocity diameter : R) : R :=
  Water.density water * velocity * (PI / 4) * diameter ^ 2.

Definition pipe_capacity (mass_flow temperature_supply temperature_return : R)
  : R :=
  mass_flow * Water.heat_capacity_cp water
  * (temperature_supply - temperature_return).

Definition capacity_to_diameter
  (pipe_capacity temperature_supply temperature_return : R) : result R :=
  py_div pipe_capacity
         (Water.heat_capacity_cp water
          * (temperature_supply - temperature_return)).

Definition thermal_resistance (diameter diameter_ratio depth : R)
  : result R :=
  let outer_diameter := diameter * diameter_ratio in
  q <- py_div (4 * depth) outer_diameter ;;
  lg <- np_log q ;;
  thermal_resistance_ground <-
    py_div lg (2 * PI * Ground.thermal_conductivity ground) ;;
  li <- np_log diameter_ratio ;;
  thermal_resistance_insulation <-
    py_div li (2 * PI * Piping.thermal_conductivity piping) ;;
  Ok (thermal_resistance_insulation + thermal_resistance_ground).

Definition heat_loss_pipe
  (mass_flow length temperature_in thermal_resistance_pipe
   ambient_temperature : R) : result R :=
  let temp_diff_in := temperature_in - ambient_temperature in
  q <- py_div (- length)
              (mass_flow * Water.heat_capacity_cp water
               * thermal_resistance_pipe) ;;
  e <- np_exp q ;;
  let temp_diff_out := temp_diff_in * e in
  let temperature_out := temp_diff_out + ambient_temperature in
  py_div (mass_flow * Water.heat_capacity_cp water
          * (temperature_in - temperature_out)) length.

(** The loop of [regression_thermal_capacity] over the catalog, from
    index [i] on. *)
Fixpoint velocity_sweep (V_INIT : R) (diameters : list R) (i : nat)
  (velocity_max : list R) : result (list R) :=
  match diameters with
  | [] => Ok velocity_max
  | diam :: rest =>
      v <- max_flow_velocity V_INIT diam (Piping.roughness piping)
                             (Piping.max_pr_loss piping) ;;
      velocity_max' <- array_set velocity_max i v ;;
      velocity_sweep V_INIT rest (S i) velocity_max'
  end.

Definition regression_thermal_capacity (t_supply t_return : R)
  : result ThermalCapacity.t :=
  let V_INIT := 5 / 10 in
  velocity_max <-
    velocity_sweep V_INIT (Piping.diameter piping) 0
                   (np_zeros (Piping.number_diameter piping)) ;;
  mass_flow_max <-
    broadcast2 (fun v d => Ok (mass_flow v d)) velocity_max
               (Piping.diameter piping) ;;
  let power_flow_max :=
    map (fun m => pipe_capacity m t_supply t_return) mass_flow_max in
  regression <-
    linregress (map (fun p => p / 1000) power_flow_max)
               (Piping.cost piping) ;;
  Ok {| ThermalCapacity.mass_flow_max := mass_flow_max;
        ThermalCapacity.power_flow_max := power_flow_max;
        ThermalCapacity.params :=
          {| Params.a := np_round (Linregress.slope regression) 6;
             Params.b := np_round (Linregress.intercept regression) 3;
             Params.r2 := Linregress.rvalue regression ^ 2 |};
        ThermalCapacity.power_flow_max_kW :=
          map (fun p => np_round (p / 1000) 3) power_flow_max;
        ThermalCapacity.power_flow_max_partload := 1 |}.

Definition regression_heat_losses (t_supply t_ambient : R)
  (thermal_capacity : ThermalCapacity.t) : result HeatLosses.t :=
  let pipe_depth := np_ones (Piping.number_diameter piping) in
  let pipe_length :=
    map (fun o => 100 * o) (np_ones (Piping.number_diameter piping)) in
  res_pipe <-
    broadcast3 thermal_resistance (Piping.diameter piping)
               (Piping.ratio piping) pipe_depth ;;
  let mass_flow := ThermalCapacity.mass_flow_max thermal_capacity in
  let maximal_power := ThermalCapacity.power_flow_max thermal_capacity in
  heat_loss <-
    broadcast3 (fun m l r => heat_loss_pipe m l t_supply r t_ambient)
               mass_flow pipe_length res_pipe ;;
  regression <-
    linregress (map (fun p => p / 1000) maximal_power)
               (map (fun h => h / 1000) heat_loss) ;;
  let factors :=
    {| Params.b := np_round (Linregress.intercept regression) 6;
       Params.a := np_round (Linregress.slope regression) 10;
       Params.r2 := Linregress.rvalue regression ^ 2 |} in
  Ok {| HeatLosses.heat_loss := heat_loss;
        HeatLosses.params := factors |}.

(** The Darcy-Weisbach specific pressure loss (Pa/m) of a flow of
    velocity [vel] with friction factor [f], the expression the
    specification substitutes the solved velocity back into. *)
Definition darcy_weisbach_pressure_loss (f diameter vel : R) : R :=
  f * Water.density water * vel ^ 2 / (2 * diameter).

End Precalculation.

(** ** Instances of the library calls *)

Definition Rsum (xs : list R) : R := fold_right Rplus 0 xs.

Definition mean (xs : list R) : R := Rsum xs / INR (length xs).

(** Ordinary least squares in exact arithmetic, the computation of
    [scipy.stats.linregress]: it instantiates the [linregress] parameter
    wherever a concrete regression is evaluated. *)
Definition least_squares (x y : list R) : result Linregress.t :=
  if negb (Nat.eqb (length x) (length y)) then Err ValueError
  else if Nat.eqb (length x) 0 then Err ValueError
  else
    let xmean := mean x in
    let ymean := mean y in
    let ssxm := mean (map (fun xi => (xi - xmean) ^ 2) x) in
    let ssym := mean (map (fun yi => (yi - ymean) ^ 2) y) in
    let ssxym :=
      mean (map (fun xy => (fst xy - xmean) * (snd xy - ymean))
                (combine x y)) in
    if Reqb ssxm 0 then Err ValueError
    else
      let r := if Reqb ssym 0 then 0 else ssxym / sqrt (ssxm * ssym) in
      Ok {| Linregress.slope := ssxym / ssxm;
            Linregress.intercept := ymean - ssxym / ssxm * xmean;
            Linregress.rvalue := r |}.

(** A run of the root finder that makes no progress from the initial
    guess and stops with status 5 ("the iteration is not making good
    progress"). *)
Definition stalled_solver (func : R -> result R) (x0 : R)
  : result Fsolve.t :=
  Ok {| Fsolve.x := x0; Fsolve.ier := 5 |}.

(** A run of the root finder that stops at [root] with status 1. *)
Definition solver_reaching (root : R) (func : R -> result R) (x0 : R)
  : result Fsolve.t :=
  Ok {| Fsolve.x := root; Fsolve.ier := 1 |}.

(** ** Sample settings *)

Definition sample_water : Water.t :=
  {| Water.density := 1000;
     Water.dynamic_viscosity := 1 / 1000;
     Water.heat_capacity_cp := 4200 |}.

Definition sample_ground : Ground.t :=
  {| Ground.thermal_conductivity := 5 / 2 |}.

(** A catalog of two pipes with the same outer diameter of 2 m. *)
Definition sample_piping : Piping.t :=
  {| Piping.diameter := [1 / 2; 1];
     Piping.ratio := [4; 2];
     Piping.cost := [500; 800];
     Piping.number_diameter := 2;
     Piping.max_pr_loss := 250;
     Piping.roughness := 1 / 1000;
     Piping.thermal_conductivity := 1 / 40 |}.

(** Mass flows of 100 and 1000 kg/s and their capacities at a supply and
    return temperature 30 K apart. *)
Definition sample_capacity : ThermalCapacity.t :=
  {| ThermalCapacity.mass_flow_max := [100; 1000];
     ThermalCapacity.power_flow_max :=
       [pipe_capacity sample_water 100 80 50;
        pipe_capacity sample_water 1000 80 50];
     ThermalCapacity.params := {| Params.a := 0; Params.b := 0; Params.r2 := 0 |};
     ThermalCapacity.power_flow_max_kW := [12600; 126000];
     ThermalCapacity.power_flow_max_partload := 1 |}.

(** The friction factor of the sample water flowing at 1 m/s through a
    pipe of 100 mm diameter and 1 mm roughness, and the specific pressure
    loss of that flow. *)
Definition sample_friction : R :=
  match friction_factor sample_water (1 / 10) (1 / 1000) 1 with
  | Ok f => f
  | Err _ => 1
  end.

Definition sample_pressure_loss : R :=
  darcy_weisbach_pressure_loss sample_water sample_friction (1 / 10) 1.

(** ** Predicates of the statements *)

(** [x] has at most [decimals] decimal places. *)
Definition on_decimal_grid (x : R) (decimals : nat) : Prop :=
  exists k : Z, x = IZR k / 10 ^ decimals.

(** * Properties *)

(** ** Evaluation lemmas for the primitive operations *)

Lemma Rltb_true (x y : R) : x < y -> Rltb x y = true.
Proof. intros H. unfold Rltb. destruct (Rlt_dec x y); [reflexivity | contradiction]. Qed.

Lemma Rltb_false (x y : R) : y <= x -> Rltb x y = false.
Proof. intros H. unfold Rltb. destruct (Rlt_dec x y); [lra | reflexivity]. Qed.

Lemma Rleb_true (x y : R) : x <= y -> Rleb x y = true.
Proof. intros H. unfold Rleb. destruct (Rle_dec x y); [reflexivity | contradiction]. Qed.

Lemma Rleb_false (x y : R) : y < x -> Rleb x y = false.
Proof. intros H. unfold Rleb. destruct (Rle_dec x y); [lra | reflexivity]. Qed.

Lemma Rgeb_true (x y : R) : x >= y -> Rgeb x y = true.
Proof. intros H. unfold Rgeb. destruct (Rge_dec x y); [reflexivity | contradiction]. Qed.

Lemma Reqb_true (x y : R) : x = y -> Reqb x y = true.
Proof. intros H. unfold Reqb. destruct (Req_dec_T x y); [reflexivity | contradiction]. Qed.

Lemma Reqb_false (x y : R) : x <> y -> Reqb x y = false.
Proof. intros H. unfold Reqb. destruct (Req_dec_T x y); [contradiction | reflexivity]. Qed.

Lemma py_div_ok (x y : R) : y <> 0 -> py_div x y = Ok (x / y).
Proof. intros H. unfold py_div. now rewrite Reqb_false. Qed.

Lemma py_div_zero (x y : R) : y = 0 -> py_div x y = Err ZeroDivisionError.
Proof. intros H. unfold py_div. now rewrite Reqb_true. Qed.

Lemma py_div_inv (x y q : R) : py_div x y = Ok q -> y <> 0 /\ q = x / y.
Proof.
  unfold py_div, Reqb. destruct (Req_dec_T y 0); intros H; [discriminate |].
  injection H as <-. now split.
Qed.

Lemma np_log_ok (x : R) : 0 < x -> np_log x = Ok (ln x).
Proof. intros H. unfold np_log. now rewrite Rltb_true. Qed.

Lemma np_log10_inv (x l : R) : np_log10 x = Ok l -> 0 < x /\ l = ln x / ln 10.
Proof.
  unfold np_log10, Rltb. destruct (Rlt_dec 0 x); intros H; [| discriminate].
  injection H as <-. now split.
Qed.

Lemma np_sqrt_inv (x s : R) : np_sqrt x = Ok s -> 0 <= x /\ s = sqrt x.
Proof.
  unfold np_sqrt, Rleb. destruct (Rle_dec 0 x); intros H; [| discriminate].
  injection H as <-. now split.
Qed.

Lemma py_pow_m2_inv (x f : R) : py_pow_m2 x = Ok f -> x <> 0 /\ f = / (x * x).
Proof.
  unfold py_pow_m2, Reqb. destruct (Req_dec_T x 0); intros H; [discriminate |].
  injection H as <-. now split.
Qed.

Lemma bind_inv {A B : Type} (m : result A) (k : A -> result B) (v : B) :
  bind m k = Ok v -> exists u, m = Ok u /\ k u = Ok v.
Proof. destruct m as [u | e]; simpl; intros H; [now exists u | discriminate]. Qed.

(** ** The control curve *)

Section ControlCurve.

Variables sh sl th tl : R.
Hypothesis Hturn : th < tl.

Lemma feed_line_below (T : R) :
  T < th -> determine_feed_line_temp T sh sl th tl = Ok sh.
Proof. intros H. unfold determine_feed_line_temp. now rewrite Rltb_true. Qed.

Lemma feed_line_between (T : R) :
  th <= T <= tl ->
  determine_feed_line_temp T sh sl th tl
  = Ok (sh - (T - th) / (tl - th) * (sh - sl)).
Proof.
  intros [Hlo Hhi]. unfold determine_feed_line_temp.
  rewrite Rltb_false, Rgeb_true, Rleb_true by lra. simpl.
  rewrite py_div_ok by lra. reflexivity.
Qed.

Lemma feed_line_above (T : R) :
  tl < T -> determine_feed_line_temp T sh sl th tl = Ok sl.
Proof.
  intros H. unfold determine_feed_line_temp.
  rewrite Rltb_false, Rgeb_true, Rleb_false by lra. reflexivity.
Qed.

Lemma feed_line_total (T : R) :
  determine_feed_line_temp T sh sl th tl
  = Ok (feed_line_curve sh sl th tl T).
Proof.
  unfold feed_line_curve.
  destruct (Rlt_dec T th) as [H1 | H1].
  - now rewrite feed_line_below.
  - destruct (Rle_dec T tl) as [H2 | H2].
    + now rewrite feed_line_between by lra.
    + now rewrite feed_line_above by lra.
Qed.

Lemma curve_below (T : R) : T <= th -> feed_line_curve sh sl th tl T = sh.
Proof.
  intros H. unfold feed_line_curve.
  destruct (Rlt_dec T th) as [H1 | H1].
  - now rewrite feed_line_below.
  - rewrite feed_line_between by lra. cbv beta iota.
    replace T with th by lra. field. lra.
Qed.

Lemma curve_between (T : R) :
  th <= T <= tl ->
  feed_line_curve sh sl th tl T = sh - (T - th) / (tl - th) * (sh - sl).
Proof. intros H. unfold feed_line_curve. now rewrite feed_line_between. Qed.

Lemma curve_above (T : R) : tl <= T -> feed_line_curve sh sl th tl T = sl.
Proof.
  intros H. unfold feed_line_curve.
  destruct (Rle_dec T tl) as [H1 | H1].
  - rewrite feed_line_between by lra. cbv beta iota.
    replace T with tl by lra. field. lra.
  - now rewrite feed_line_above by lra.
Qed.

(** The slope of the ramp. *)
Local Abbreviation K := ((sh - sl) / (tl - th)).

Lemma curve_ramp (T : R) :
  th <= T <= tl -> feed_line_curve sh sl th tl T = sh - K * (T - th).
Proof. intros H. rewrite curve_between by exact H. field. lra. Qed.

Lemma ramp_end : K * (tl - th) = sh - sl.
Proof. field. lra. Qed.

Hypothesis Hsup : sh >= sl.

Lemma ramp_nonneg : 0 <= K.
Proof. apply Rmult_le_pos; [lra |]. left. apply Rinv_0_lt_compat. lra. Qed.

(** Between two ambient temperatures the curve falls, by at most the
    slope of the ramp times their distance. *)
Lemma curve_step (T1 T2 : R) :
  T1 <= T2 ->
  0 <= feed_line_curve sh sl th tl T1 - feed_line_curve sh sl th tl T2
    <= K * (T2 - T1).
Proof.
  intros H12. pose proof ramp_nonneg as HK. pose proof ramp_end as HE.
  destruct (Rle_dec T1 th) as [A1 | A1];
    [rewrite (curve_below T1) by lra
    | destruct (Rle_dec T1 tl) as [B1 | B1];
      [rewrite (curve_ramp T1) by lra | rewrite (curve_above T1) by lra]];
  (destruct (Rle_dec T2 th) as [A2 | A2];
    [rewrite (curve_below T2) by lra
    | destruct (Rle_dec T2 tl) as [B2 | B2];
      [rewrite (curve_ramp T2) by lra | rewrite (curve_above T2) by lra]]);
  try lra; nra.
Qed.

Lemma curve_monotone (T1 T2 : R) :
  T1 <= T2 ->
  feed_line_curve sh sl th tl T2 <= feed_line_curve sh sl th tl T1.
Proof. intros H. pose proof (curve_step T1 T2 H). lra. Qed.

Lemma curve_lipschitz (T1 T2 : R) :
  Rabs (feed_line_curve sh sl th tl T1 - feed_line_curve sh sl th tl T2)
  <= K * Rabs (T1 - T2).
Proof.
  destruct (Rle_dec T1 T2) as [H | H].
  - pose proof (curve_step T1 T2 H).
    rewrite Rabs_pos_eq by lra. rewrite Rabs_minus_sym, Rabs_pos_eq by lra. lra.
  - pose proof (curve_step T2 T1 ltac:(lra)).
    rewrite Rabs_minus_sym, Rabs_pos_eq by lra. rewrite Rabs_pos_eq by lra. lra.
Qed.

Lemma curve_continuous : continuity (feed_line_curve sh sl th tl).
Proof.
  intros T0 eps Heps. pose proof ramp_nonneg as HK.
  exists (eps / (K + 1)). split.
  - apply Rdiv_lt_0_compat; lra.
  - intros T [_ Hd]. simpl in Hd. unfold Rdist in *.
    eapply Rle_lt_trans; [apply curve_lipschitz |].
    assert (Hk1 : 0 < K + 1) by lra.
    assert (Hb : Rabs (T - T0) * (K + 1) < eps).
    { apply (Rmult_lt_compat_r (K + 1)) in Hd; [| exact Hk1].
      unfold Rdiv in Hd. rewrite Rmult_assoc, Rinv_l in Hd by lra. lra. }
    pose proof (Rabs_pos (T - T0)). nra.
Qed.

End ControlCurve.

(** ** Flow and capacity conversions *)

Lemma capacity_to_diameter_zero_differential (water : Water.t) (P T : R) :
  capacity_to_diameter water P T T = Err ZeroDivisionError.
Proof. unfold capacity_to_diameter. apply py_div_zero. ring. Qed.

(** ** Thermal resistance *)

Section ThermalResistance.

Variable ground : Ground.t.
Variable piping : Piping.t.

Local Abbreviation k_ground := (Ground.thermal_conductivity ground).
Local Abbreviation k_insulation := (Piping.thermal_conductivity piping).

Hypothesis k_ground_nonzero : k_ground <> 0.
Hypothesis k_insulation_nonzero : k_insulation <> 0.

Lemma two_pi_k_nonzero (k : R) : k <> 0 -> 2 * PI * k <> 0.
Proof.
  intros Hk. pose proof PI_RGT_0.
  apply Rmult_integral_contrapositive_currified; [lra | exact Hk].
Qed.

(** Whenever the three arguments are positive both logarithms are
    defined, whatever the burial depth. *)
Lemma thermal_resistance_value (diameter diameter_ratio depth : R) :
  0 < diameter -> 0 < diameter_ratio -> 0 < depth ->
  thermal_resistance ground piping diameter diameter_ratio depth
  = Ok (ln diameter_ratio / (2 * PI * k_insulation)
        + ln (4 * depth / (diameter * diameter_ratio))
          / (2 * PI * k_ground)).
Proof.
  intros Hd Hr Hz. unfold thermal_resistance.
  assert (Ho : 0 < diameter * diameter_ratio) by (apply Rmult_lt_0_compat; assumption).
  rewrite py_div_ok by lra. cbn [bind].
  rewrite np_log_ok by (apply Rdiv_lt_0_compat; lra). cbn [bind].
  rewrite py_div_ok by (apply two_pi_k_nonzero; exact k_ground_nonzero).
  cbn [bind]. rewrite np_log_ok by exact Hr. cbn [bind].
  rewrite py_div_ok by (apply two_pi_k_nonzero; exact k_insulation_nonzero).
  reflexivity.
Qed.

Lemma ln_nonpos (x : R) : 0 < x -> x <= 1 -> ln x <= 0.
Proof.
  intros H0 [H1 | H1].
  - left. rewrite <- ln_1. now apply ln_increasing.
  - subst x. rewrite ln_1. lra.
Qed.

End ThermalResistance.

(** ** Heat loss *)

Section HeatLoss.

Variable water : Water.t.
Local Abbreviation cp := (Water.heat_capacity_cp water).
Hypothesis cp_nonzero : cp <> 0.

Variables m L Tin Tamb : R.
Hypothesis m_pos : 0 < m.
Hypothesis L_pos : 0 < L.

Lemma capacity_rate_nonzero : m * cp <> 0.
Proof. apply Rmult_integral_contrapositive_currified; [lra | exact cp_nonzero]. Qed.

(** Closed form of the heat loss for a positive resistance. *)
Lemma heat_loss_pipe_value (Rp : R) :
  0 < Rp ->
  heat_loss_pipe water m L Tin Rp Tamb
  = Ok ((Tin - Tamb) / L * (m * cp - m * cp * exp (- L / (m * cp * Rp)))).
Proof.
  intros HR. unfold heat_loss_pipe. pose proof capacity_rate_nonzero as Hc.
  rewrite py_div_ok
    by (apply Rmult_integral_contrapositive_currified; [exact Hc | lra]).
  cbn [bind np_exp]. rewrite py_div_ok by lra. f_equal. field. lra.
Qed.

(** The decay factor weighted by the capacity rate grows with the
    resistance, whatever the sign of the capacity rate. *)
Lemma weighted_decay_increasing (R1 R2 : R) :
  0 < R1 -> R1 < R2 ->
  m * cp * exp (- L / (m * cp * R1)) < m * cp * exp (- L / (m * cp * R2)).
Proof.
  intros H1 H12. pose proof capacity_rate_nonzero as Hc.
  set (c := m * cp) in *.
  assert (Hgap : - L / (c * R2) - - L / (c * R1)
                 = L * (R2 - R1) / (R1 * R2) * / c) by (field; lra).
  assert (HD : 0 < L * (R2 - R1) / (R1 * R2)).
  { apply Rdiv_lt_0_compat; apply Rmult_lt_0_compat; lra. }
  destruct (Rdichotomy _ _ Hc) as [Hneg | Hpos].
  - assert (Hi : / c < 0) by now apply Rinv_lt_0_compat.
    assert (Hq : - L / (c * R2) < - L / (c * R1)) by nra.
    apply exp_increasing in Hq. nra.
  - assert (Hi : 0 < / c) by now apply Rinv_0_lt_compat.
    assert (Hq : - L / (c * R1) < - L / (c * R2)) by nra.
    apply exp_increasing in Hq. nra.
Qed.

End HeatLoss.

(** ** Rounding *)

Lemma Rabs_le_bounds (a b : R) : Rabs a <= b -> - b <= a <= b.
Proof.
  intros H. pose proof (Rle_abs a). pose proof (Rle_abs (- a)) as Hn.
  rewrite Rabs_Ropp in Hn. lra.
Qed.

Lemma round_half_even_close (x : R) :
  Rabs (IZR (round_half_even x) - x) <= 1 / 2.
Proof.
  unfold round_half_even.
  destruct (base_Int_part x) as [Hlo Hhi].
  set (f := Int_part x) in *.
  unfold Rltb.
  destruct (Rlt_dec (x - IZR f) (1 / 2)) as [H1 | H1].
  - apply Rabs_le. lra.
  - assert (Hup : Rabs (IZR (f + 1) - x) <= 1 / 2)
      by (rewrite plus_IZR; apply Rabs_le; lra).
    destruct (Rlt_dec (1 / 2) (x - IZR f)) as [H2 | H2]; [exact Hup |].
    destruct (Z.even f); [apply Rabs_le; lra | exact Hup].
Qed.

Lemma pow10_pos (n : nat) : 0 < 10 ^ n.
Proof. apply pow_lt. lra. Qed.

Lemma np_round_on_grid (x : R) (n : nat) : on_decimal_grid (np_round x n) n.
Proof. now exists (round_half_even (x * 10 ^ n)). Qed.

Lemma np_round_close (x : R) (n : nat) :
  Rabs (np_round x n - x) <= 1 / 2 / 10 ^ n.
Proof.
  pose proof (pow10_pos n) as Hp.
  pose proof (round_half_even_close (x * 10 ^ n)) as Hc.
  unfold np_round.
  replace (IZR (round_half_even (x * 10 ^ n)) / 10 ^ n - x)
    with ((IZR (round_half_even (x * 10 ^ n)) - x * 10 ^ n) * / 10 ^ n)
    by (field; lra).
  rewrite Rabs_mult, (Rabs_pos_eq (/ 10 ^ n))
    by (left; now apply Rinv_0_lt_compat).
  unfold Rdiv. apply Rmult_le_compat_r; [| exact Hc].
  left. now apply Rinv_0_lt_compat.
Qed.

(** Strictly between zero and the first grid point there is no grid
    point. *)
Lemma below_first_grid_point (x : R) (n : nat) :
  0 < x -> x < 1 / 10 ^ n -> ~ on_decimal_grid x n.
Proof.
  intros H0 H1 [k Hk]. pose proof (pow10_pos n) as Hp.
  assert (Hx : x * 10 ^ n = IZR k) by (rewrite Hk; field; lra).
  assert (Hlo : 0 < IZR k) by (rewrite <- Hx; now apply Rmult_lt_0_compat).
  assert (Hhi : IZR k < 1).
  { rewrite <- Hx. apply (Rmult_lt_compat_r (10 ^ n)) in H1; [| exact Hp].
    replace (1 / 10 ^ n * 10 ^ n) with 1 in H1 by (field; lra). exact H1. }
  apply lt_IZR in Hlo. apply lt_IZR in Hhi. lia.
Qed.

(** ** The regressions *)

Section Regressions.

Variable water : Water.t.
Variable ground : Ground.t.
Variable piping : Piping.t.
Variable fsolve : (R -> result R) -> R -> result Fsolve.t.
Variable linregress : list R -> list R -> result Linregress.t.

Lemma regression_thermal_capacity_params (t_supply t_return : R)
  (r : ThermalCapacity.t) :
  regression_thermal_capacity water piping fsolve linregress
                              t_supply t_return = Ok r ->
  exists regression,
    linregress (map (fun p => p / 1000) (ThermalCapacity.power_flow_max r))
               (Piping.cost piping) = Ok regression
    /\ Params.a (ThermalCapacity.params r)
       = np_round (Linregress.slope regression) 6
    /\ Params.b (ThermalCapacity.params r)
       = np_round (Linregress.intercept regression) 3.
Proof.
  unfold regression_thermal_capacity. intros H.
  apply bind_inv in H as (velocity_max & _ & H).
  apply bind_inv in H as (mass_flow_max & _ & H).
  apply bind_inv in H as (regression & Hreg & H).
  injection H as <-. exists regression. cbn. auto.
Qed.

Lemma regression_heat_losses_params (t_supply t_ambient : R)
  (thermal_capacity : ThermalCapacity.t) (r : HeatLosses.t) :
  regression_heat_losses water ground piping linregress
                         t_supply t_ambient thermal_capacity = Ok r ->
  exists regression,
    linregress (map (fun p => p / 1000)
                    (ThermalCapacity.power_flow_max thermal_capacity))
               (map (fun h => h / 1000) (HeatLosses.heat_loss r))
    = Ok regression
    /\ Params.a (HeatLosses.params r)
       = np_round (Linregress.slope regression) 10
    /\ Params.b (HeatLosses.params r)
       = np_round (Linregress.intercept regression) 6.
Proof.
  unfold regression_heat_losses. intros H.
  apply bind_inv in H as (res_pipe & _ & H).
  apply bind_inv in H as (heat_loss & _ & H).
  apply bind_inv in H as (regression & Hreg & H).
  injection H as <-. exists regression. cbn. auto.
Qed.

End Regressions.

(** ** Evaluation on small catalogs *)

Lemma broadcast2_pair (f : R -> R -> result R) (x1 x2 y1 y2 : R) :
  broadcast2 f [x1; x2] [y1; y2]
  = (v1 <- f x1 y1 ;; v2 <- f x2 y2 ;; Ok [v1; v2]).
Proof.
  unfold broadcast2. cbn. destruct (f x1 y1); [| reflexivity].
  cbn. destruct (f x2 y2); reflexivity.
Qed.

Lemma broadcast3_pair (f : R -> R -> R -> result R)
  (x1 x2 y1 y2 z1 z2 : R) :
  broadcast3 f [x1; x2] [y1; y2] [z1; z2]
  = (v1 <- f x1 y1 z1 ;; v2 <- f x2 y2 z2 ;; Ok [v1; v2]).
Proof.
  unfold broadcast3. cbn. destruct (f x1 y1 z1); [| reflexivity].
  cbn. destruct (f x2 y2 z2); reflexivity.
Qed.

Lemma array_set_at (pre rest : list R) (y v : R) :
  array_set (pre ++ y :: rest) (length pre) v = Ok (pre ++ v :: rest).
Proof.
  induction pre as [| p pre IH]; [reflexivity |].
  cbn [app length array_set]. now rewrite IH.
Qed.

(** The line through two points with distinct abscissas. *)
Lemma least_squares_two_points (x1 x2 y1 y2 : R) :
  x1 <> x2 ->
  exists regression,
    least_squares [x1; x2] [y1; y2] = Ok regression
    /\ Linregress.slope regression = (y2 - y1) / (x2 - x1)
    /\ Linregress.intercept regression
       = y1 - (y2 - y1) / (x2 - x1) * x1.
Proof.
  intros Hx. unfold least_squares.
  cbn [length Nat.eqb negb map combine fst snd].
  assert (Hm : forall u v : R, mean [u; v] = (u + v) / 2).
  { intros u v. unfold mean, Rsum. cbn [length fold_right INR]. field. }
  rewrite !Hm.
  assert (Hss : ((x1 - (x1 + x2) / 2) ^ 2 + (x2 - (x1 + x2) / 2) ^ 2) / 2
                = (x2 - x1) ^ 2 / 4) by field.
  assert (Hnz : (x2 - x1) ^ 2 / 4 <> 0).
  { assert (0 < (x2 - x1) ^ 2) by (assert (x2 - x1 <> 0) by lra; nra). lra. }
  rewrite Reqb_false by (rewrite Hss; exact Hnz).
  eexists. split; [reflexivity |]. cbn [Linregress.slope Linregress.intercept].
  split; field; lra.
Qed.

Section Sweep.

Variable water : Water.t.
Variable piping : Piping.t.
Variable fsolve : (R -> result R) -> R -> result Fsolve.t.

(** The value the root finder hands back for one diameter (0 when the
    call fails). *)
Local Abbreviation solved V_INIT :=
  (fun diam =>
     match fsolve (vel_calculation water diam (Piping.roughness piping)
                                   (Piping.max_pr_loss piping)) V_INIT with
     | Ok solution => Fsolve.x solution
     | Err _ => 0
     end).

Local Abbreviation solvable V_INIT diameters :=
  (forall diam, In diam diameters ->
     is_ok (fsolve (vel_calculation water diam (Piping.roughness piping)
                                    (Piping.max_pr_loss piping)) V_INIT)).

Lemma velocity_sweep_from (V_INIT : R) (diameters pre : list R) :
  solvable V_INIT diameters ->
  velocity_sweep water piping fsolve V_INIT diameters (length pre)
                 (pre ++ np_zeros (length diameters))
  = Ok (pre ++ map (solved V_INIT) diameters).
Proof.
  revert pre. induction diameters as [| diam rest IH]; intros pre Hok.
  - cbn. reflexivity.
  - cbn [velocity_sweep max_flow_velocity length np_zeros repeat map].
    destruct (Hok diam (or_introl eq_refl)) as [solution Hs].
    unfold max_flow_velocity. rewrite Hs. cbn [bind].
    rewrite array_set_at. cbn [bind].
    replace (S (length pre)) with (length (pre ++ [Fsolve.x solution]))
      by (rewrite length_app; cbn; lia).
    replace (pre ++ Fsolve.x solution :: repeat 0 (length rest))
      with ((pre ++ [Fsolve.x solution]) ++ np_zeros (length rest))
      by (rewrite <- app_assoc; reflexivity).
    rewrite IH, <- app_assoc by (intros d Hd; apply Hok; now right).
    reflexivity.
Qed.

(** With as many array slots as catalog entries, the sweep stores the
    solver's value for every diameter. *)
Lemma velocity_sweep_catalog (V_INIT : R) :
  length (Piping.diameter piping) = Piping.number_diameter piping ->
  solvable V_INIT (Piping.diameter piping) ->
  velocity_sweep water piping fsolve V_INIT (Piping.diameter piping) 0
                 (np_zeros (Piping.number_diameter piping))
  = Ok (map (solved V_INIT) (Piping.diameter piping)).
Proof.
  intros <- Hok.
  exact (velocity_sweep_from V_INIT (Piping.diameter piping) [] Hok).
Qed.

End Sweep.

(** ** Numerical bounds *)

Lemma ln2_bounds : 1 / 2 < ln 2 < 1.
Proof.
  split.
  - pose proof ln_lt_2. lra.
  - apply Rlt_le_trans with (ln (exp 1)); [| rewrite ln_exp; lra].
    apply ln_increasing; [lra |].
    pose proof (exp_ineq1 1 ltac:(lra)). lra.
Qed.

Lemma pi_bounds : 3 < PI <= 4.
Proof. pose proof PI2_3_2. pose proof PI_4. lra. Qed.

Lemma exp_neg_bounds (x : R) :
  0 < x -> 1 - x <= exp (- x) <= / (1 + x).
Proof.
  intros Hx. split.
  - pose proof (exp_ineq1_le (- x)). lra.
  - pose proof (exp_ineq1_le x) as Hle.
    rewrite exp_Ropp. apply Rinv_le_contravar; lra.
Qed.

Section HeatLossBounds.

Variable water : Water.t.
Local Abbreviation cp := (Water.heat_capacity_cp water).
Hypothesis cp_pos : 0 < cp.

Variables m L Tin Tamb Rp : R.
Hypothesis m_pos : 0 < m.
Hypothesis L_pos : 0 < L.
Hypothesis Rp_pos : 0 < Rp.
Hypothesis warm : 0 <= Tin - Tamb.

(** The heat loss lies between the loss of the pipe with the transport
    delay added to its resistance and the loss at the inlet
    temperature. *)
Lemma heat_loss_pipe_bounds :
  exists h,
    heat_loss_pipe water m L Tin Rp Tamb = Ok h
    /\ (Tin - Tamb) / (Rp + L / (m * cp)) <= h <= (Tin - Tamb) / Rp.
Proof.
  assert (Hcp : cp <> 0) by lra.
  rewrite (heat_loss_pipe_value water Hcp m L Tin Tamb m_pos L_pos Rp Rp_pos).
  eexists. split; [reflexivity |].
  assert (Hc : 0 < m * cp) by now apply Rmult_lt_0_compat.
  set (c := m * cp) in *.
  set (x := L / (c * Rp)).
  assert (Hx : 0 < x)
    by (apply Rdiv_lt_0_compat; [lra | now apply Rmult_lt_0_compat]).
  replace (- L / (c * Rp)) with (- x) by (unfold x; field; lra).
  destruct (exp_neg_bounds x Hx) as [Elo Ehi].
  set (E := exp (- x)) in *.
  assert (Hdt : 0 <= (Tin - Tamb) / L)
    by (apply Rmult_le_pos; [lra | left; now apply Rinv_0_lt_compat]).
  split.
  - replace ((Tin - Tamb) / (Rp + L / c))
      with ((Tin - Tamb) / L * (c - c * / (1 + x)))
      by (unfold x; field; repeat split; nra).
    apply Rmult_le_compat_l; [exact Hdt | nra].
  - replace ((Tin - Tamb) / Rp) with ((Tin - Tamb) / L * (c * x))
      by (unfold x; field; lra).
    apply Rmult_le_compat_l; [exact Hdt | nra].
Qed.

End HeatLossBounds.

(** ** The heat-loss regression on the sample catalog *)

Lemma regression_heat_losses_two_pipes
  (water : Water.t) (ground : Ground.t) (piping : Piping.t)
  (linregress : list R -> list R -> result Linregress.t)
  (t_supply t_ambient : R) (thermal_capacity : ThermalCapacity.t)
  (d1 d2 q1 q2 m1 m2 p1 p2 R1 R2 h1 h2 : R) (regression : Linregress.t) :
  Piping.diameter piping = [d1; d2] ->
  Piping.ratio piping = [q1; q2] ->
  Piping.number_diameter piping = 2%nat ->
  ThermalCapacity.mass_flow_max thermal_capacity = [m1; m2] ->
  ThermalCapacity.power_flow_max thermal_capacity = [p1; p2] ->
  thermal_resistance ground piping d1 q1 1 = Ok R1 ->
  thermal_resistance ground piping d2 q2 1 = Ok R2 ->
  heat_loss_pipe water m1 (100 * 1) t_supply R1 t_ambient = Ok h1 ->
  heat_loss_pipe water m2 (100 * 1) t_supply R2 t_ambient = Ok h2 ->
  linregress [p1 / 1000; p2 / 1000] [h1 / 1000; h2 / 1000] = Ok regression ->
  regression_heat_losses water ground piping linregress t_supply t_ambient
                         thermal_capacity
  = Ok {| HeatLosses.heat_loss := [h1; h2];
          HeatLosses.params :=
            {| Params.a := np_round (Linregress.slope regression) 10;
               Params.b := np_round (Linregress.intercept regression) 6;
               Params.r2 := Linregress.rvalue regression ^ 2 |} |}.
Proof.
  intros Hd Hq Hn Hm Hp HR1 HR2 Hh1 Hh2 Hreg.
  unfold regression_heat_losses. rewrite Hd, Hq, Hn, Hm, Hp.
  cbn [np_ones repeat map]. rewrite broadcast3_pair.
  rewrite HR1, HR2. cbn [bind]. rewrite broadcast3_pair. cbv beta.
  rewrite Hh1, Hh2. cbn [bind map].
  rewrite Hreg. reflexivity.
Qed.

(** Both sample pipes have a resistance proportional to [ln 2 / (2 PI)]. *)
Lemma sample_resistances :
  exists u,
    1 / 16 < u < 1 / 6
    /\ thermal_resistance sample_ground sample_piping (1 / 2) 4 1
       = Ok (u * (402 / 5))
    /\ thermal_resistance sample_ground sample_piping 1 2 1
       = Ok (u * (202 / 5)).
Proof.
  pose proof ln2_bounds as [Hl1 Hl2]. pose proof pi_bounds as [Hp1 Hp2].
  exists (ln 2 / (2 * PI)). split; [| split].
  - split.
    + apply (Rmult_lt_reg_r (2 * PI)); [lra |].
      unfold Rdiv at 2. rewrite Rmult_assoc, Rinv_l by lra. lra.
    + apply (Rmult_lt_reg_r (2 * PI)); [lra |].
      unfold Rdiv at 1. rewrite Rmult_assoc, Rinv_l by lra. lra.
  - rewrite thermal_resistance_value;
      cbn [Ground.thermal_conductivity Piping.thermal_conductivity
           sample_ground sample_piping]; try lra.
    f_equal. replace (4 * 1 / (1 / 2 * 4)) with 2 by field.
    replace (ln 4) with (ln 2 + ln 2)
      by (rewrite <- ln_mult by lra; f_equal; lra).
    field. lra.
  - rewrite thermal_resistance_value;
      cbn [Ground.thermal_conductivity Piping.thermal_conductivity
           sample_ground sample_piping]; try lra.
    f_equal. replace (4 * 1 / (1 * 2)) with 2 by field.
    field. lra.
Qed.

(** On the sample catalog the heat-loss regression succeeds, and its
    slope lies strictly between zero and one millionth. *)
Lemma sample_heat_loss_regression :
  exists r,
    regression_heat_losses sample_water sample_ground sample_piping
                           least_squares 80 10 sample_capacity = Ok r
    /\ 0 < Params.a (HeatLosses.params r) < 1 / 10 ^ 6.
Proof.
  destruct sample_resistances as (u & [Hu1 Hu2] & HR1 & HR2).
  assert (Hcp : 0 < Water.heat_capacity_cp sample_water) by (cbn; lra).
  destruct (heat_loss_pipe_bounds sample_water Hcp 100 (100 * 1) 80 10
              (u * (402 / 5))) as (h1 & Hh1 & Hlo1 & Hhi1); try lra.
  destruct (heat_loss_pipe_bounds sample_water Hcp 1000 (100 * 1) 80 10
              (u * (202 / 5))) as (h2 & Hh2 & Hlo2 & Hhi2); try lra.
  cbn [Water.heat_capacity_cp sample_water] in Hlo1, Hlo2.
  set (p1 := pipe_capacity sample_water 100 80 50).
  set (p2 := pipe_capacity sample_water 1000 80 50).
  assert (Hp1 : p1 / 1000 = 12600)
    by (unfold p1, pipe_capacity; cbn [Water.heat_capacity_cp sample_water]; lra).
  assert (Hp2 : p2 / 1000 = 126000)
    by (unfold p2, pipe_capacity; cbn [Water.heat_capacity_cp sample_water]; lra).
  destruct (least_squares_two_points (p1 / 1000) (p2 / 1000)
              (h1 / 1000) (h2 / 1000)) as (reg & Hreg & Hslope & _);
    [lra |].
  eexists. split.
  - eapply regression_heat_losses_two_pipes with (regression := reg);
      try reflexivity; eassumption.
  - cbn [HeatLosses.params Params.a].
    pose proof (np_round_close (Linregress.slope reg) 10) as Hclose.
    apply Rabs_le_bounds in Hclose.
    (* bounds on the two heat losses *)
    set (A := u * (202 / 5) + 100 * 1 / (1000 * 4200)) in *.
    set (B := u * (402 / 5)) in *.
    assert (HA : 0 < A) by (unfold A; lra).
    assert (HB : 0 < B) by (unfold B; lra).
    assert (Hgap : 1 <= (80 - 10) / A - (80 - 10) / B).
    { assert (Hnum : 0 <= 70 * (B - A) - A * B) by (unfold A, B; nra).
      replace ((80 - 10) / A - (80 - 10) / B)
        with (1 + (70 * (B - A) - A * B) / (A * B)) by (field; lra).
      assert (0 <= (70 * (B - A) - A * B) / (A * B)).
      { apply Rmult_le_pos; [exact Hnum |].
        left. apply Rinv_0_lt_compat. now apply Rmult_lt_0_compat. }
      lra. }
    assert (Hh1pos : 0 <= h1).
    { eapply Rle_trans; [| exact Hlo1].
      apply Rmult_le_pos; [lra |]. left. apply Rinv_0_lt_compat. lra. }
    assert (Hh2hi : h2 <= 30).
    { eapply Rle_trans; [exact Hhi2 |].
      apply (Rmult_le_reg_r (u * (202 / 5))); [lra |].
      unfold Rdiv. rewrite Rmult_assoc, Rinv_l by lra. lra. }
    assert (Hs : Linregress.slope reg = (h2 - h1) / 113400000)
      by (rewrite Hslope, Hp1, Hp2; field).
    assert (Hs1 : 1 / 113400000 <= Linregress.slope reg) by (rewrite Hs; lra).
    assert (Hs2 : Linregress.slope reg <= 30 / 113400000) by (rewrite Hs; lra).
    assert (H10 : 1 / 2 / 10 ^ 10 = 1 / 20000000000) by (simpl; field).
    rewrite H10 in Hclose.
    replace (1 / 10 ^ 6) with (1 / 1000000) by (simpl; field).
    lra.
Qed.

(** ** The thermal-capacity regression on the sample catalog *)

Lemma sample_capacity_regression :
  exists r,
    regression_thermal_capacity sample_water sample_piping
                                (solver_reaching 2) least_squares 80 50
    = Ok r.
Proof.
  unfold regression_thermal_capacity.
  rewrite velocity_sweep_catalog
    by (try reflexivity; intros diam _; eexists; reflexivity).
  cbn [bind Piping.diameter sample_piping map solver_reaching Fsolve.x].
  rewrite broadcast2_pair. cbn [bind map Piping.cost sample_piping].
  set (p1 := pipe_capacity sample_water (mass_flow sample_water 2 (1 / 2)) 80 50).
  set (p2 := pipe_capacity sample_water (mass_flow sample_water 2 1) 80 50).
  assert (Hne : p1 / 1000 <> p2 / 1000).
  { unfold p1, p2, pipe_capacity, mass_flow.
    cbn [Water.heat_capacity_cp Water.density sample_water].
    pose proof pi_bounds. nra. }
  destruct (least_squares_two_points (p1 / 1000) (p2 / 1000) 500 800 Hne)
    as (reg & Hreg & _).
  rewrite Hreg. cbn [bind]. eexists. reflexivity.
Qed.

(** ** The velocity solver *)

Section Solver.

Variable water : Water.t.
Local Abbreviation rho := (Water.density water).

Lemma max_flow_velocity_returns_iterate
  (fsolve : (R -> result R) -> R -> result Fsolve.t)
  (vel_init diameter roughness max_spec_pressure_loss : R)
  (solution : Fsolve.t) :
  fsolve (vel_calculation water diameter roughness max_spec_pressure_loss)
         vel_init = Ok solution ->
  max_flow_velocity water fsolve vel_init diameter roughness
                    max_spec_pressure_loss
  = Ok (Fsolve.x solution).
Proof. intros H. unfold max_flow_velocity. now rewrite H. Qed.

(** [max_flow_velocity] fails exactly when the call of the root finder
    does, and with the same error. *)
Lemma max_flow_velocity_raises
  (fsolve : (R -> result R) -> R -> result Fsolve.t)
  (vel_init diameter roughness max_spec_pressure_loss : R) (e : error) :
  raises (max_flow_velocity water fsolve vel_init diameter roughness
                            max_spec_pressure_loss) e
  <-> raises (fsolve (vel_calculation water diameter roughness
                                      max_spec_pressure_loss) vel_init) e.
Proof.
  unfold raises, max_flow_velocity.
  destruct (fsolve _ vel_init) as [solution | e']; cbn [bind].
  - split; discriminate.
  - split; intros H; injection H as ->; reflexivity.
Qed.

(** A friction factor that is computed at all is positive. *)
Lemma friction_factor_positive (diameter roughness vel f : R) :
  friction_factor water diameter roughness vel = Ok f -> 0 < f.
Proof.
  unfold friction_factor. intros H.
  apply bind_inv in H as (Re & _ & H).
  apply bind_inv in H as (rel & _ & H).
  apply bind_inv in H as (rough & _ & H).
  apply bind_inv in H as (visc & _ & H).
  apply bind_inv in H as (lg & _ & H).
  apply py_pow_m2_inv in H as [Hnz ->].
  apply Rinv_0_lt_compat. nra.
Qed.

(** What a defined residual says about its ingredients. *)
Lemma vel_calculation_inv (diameter roughness max_spec_pressure_loss vel r : R) :
  vel_calculation water diameter roughness max_spec_pressure_loss vel = Ok r ->
  exists f,
    friction_factor water diameter roughness vel = Ok f
    /\ 0 < f
    /\ rho <> 0
    /\ 0 <= 2 * max_spec_pressure_loss * diameter / (f * rho)
    /\ r = vel - sqrt (2 * max_spec_pressure_loss * diameter / (f * rho)).
Proof.
  unfold vel_calculation. intros H.
  apply bind_inv in H as (f & Hf & H).
  apply bind_inv in H as (q & Hq & H).
  apply bind_inv in H as (s & Hs & H).
  injection H as <-.
  apply py_div_inv in Hq as [Hnz ->].
  apply np_sqrt_inv in Hs as [Hq0 ->].
  exists f. pose proof (friction_factor_positive _ _ _ _ Hf) as Hfpos.
  repeat split; try assumption.
  intros Hrho. apply Hnz. rewrite Hrho. ring.
Qed.

End Solver.

(** ** The solver on the sample flow *)

Lemma Rpower_le_base (x y : R) : 0 < x -> x < 1 -> 1 <= y -> Rpower x y <= x.
Proof.
  intros H0 H1 Hy. unfold Rpower.
  assert (Hln : ln x < 0) by (rewrite <- ln_1; now apply ln_increasing).
  rewrite <- (exp_ln x H0) at 2.
  destruct (Req_dec_T (y * ln x) (ln x)) as [-> | Hne]; [lra |].
  left. apply exp_increasing. nra.
Qed.

Lemma sample_friction_defined :
  friction_factor sample_water (1 / 10) (1 / 1000) 1 = Ok sample_friction.
Proof.
  assert (H : exists f, friction_factor sample_water (1 / 10) (1 / 1000) 1 = Ok f).
  { unfold friction_factor.
    cbn [Water.density Water.dynamic_viscosity sample_water].
    rewrite py_div_ok by lra. cbn [bind].
    rewrite py_div_ok by lra. cbn [bind].
    set (rel := 1 / 1000 / (37 / 10 * (1 / 10))).
    assert (Hrel : 0 < rel < 1) by (unfold rel; lra).
    unfold py_pow. rewrite Rltb_false, Reqb_false by lra. cbn [bind].
    set (Re := 1000 * 1 * (1 / 10) / (1 / 1000)).
    assert (HRe : Re = 100000) by (unfold Re; lra).
    rewrite py_div_ok by lra. cbn [bind].
    set (arg := Rpower rel (111 / 100) + 69 / 10 / Re).
    assert (Harg : 0 < arg < 1).
    { unfold arg. rewrite HRe.
      pose proof (Rpower_le_base rel (111 / 100)
                    ltac:(lra) ltac:(lra) ltac:(lra)) as Hup.
      assert (0 < Rpower rel (111 / 100)) by apply exp_pos.
      assert (rel < 1 / 100) by (unfold rel; lra). lra. }
    unfold np_log10. rewrite Rltb_true by lra. cbn [bind].
    assert (Hlg : ln arg / ln 10 < 0).
    { assert (ln arg < 0) by (rewrite <- ln_1; apply ln_increasing; lra).
      assert (0 < ln 10) by (rewrite <- ln_1; apply ln_increasing; lra).
      assert (0 < / ln 10) by now apply Rinv_0_lt_compat.
      unfold Rdiv. nra. }
    unfold py_pow_m2. rewrite Reqb_false by lra. eexists. reflexivity. }
  destruct H as [f Hf]. unfold sample_friction. now rewrite Hf.
Qed.

(** At 1 m/s the residual for the sample pressure loss vanishes. *)
Lemma sample_flow_is_root :
  vel_calculation sample_water (1 / 10) (1 / 1000) sample_pressure_loss 1
  = Ok 0.
Proof.
  unfold vel_calculation. rewrite sample_friction_defined. cbn [bind].
  pose proof (friction_factor_positive _ _ _ _ _ sample_friction_defined) as Hf.
  unfold sample_pressure_loss, darcy_weisbach_pressure_loss.
  cbn [Water.density sample_water].
  rewrite py_div_ok by nra. cbn [bind].
  replace (2 * (sample_friction * 1000 * 1 ^ 2 / (2 * (1 / 10))) * (1 / 10)
           / (sample_friction * 1000)) with 1 by (field; lra).
  unfold np_sqrt. rewrite Rleb_true by lra. cbn [bind].
  rewrite sqrt_1. f_equal. ring.
Qed.

Lemma sample_pressure_loss_positive : 0 < sample_pressure_loss.
Proof.
  pose proof (friction_factor_positive _ _ _ _ _ sample_friction_defined) as Hf.
  unfold sample_pressure_loss, darcy_weisbach_pressure_loss.
  cbn [Water.density sample_water]. apply Rdiv_lt_0_compat; nra.
Qed.

(** * The specification's statements *)

(** C1.  For a regime with [temp_turn_high < temp_turn_low] and
    [temp_sup_high >= temp_sup_low], [determine_feed_line_temp] returns
    exactly [temp_sup_high] for every ambient temperature up to the high
    turning point, exactly [temp_sup_low] from the low turning point on,
    and the linear interpolation in between; it has a value everywhere,
    and as a function of the ambient temperature it is continuous and
    monotonically non-increasing. *)
Theorem determine_feed_line_temp_curve
  (temp_sup_high temp_sup_low temp_turn_high temp_turn_low : R) :
  temp_turn_high < temp_turn_low ->
  temp_sup_high >= temp_sup_low ->
  (forall T, T <= temp_turn_high ->
     determine_feed_line_temp T temp_sup_high temp_sup_low
                              temp_turn_high temp_turn_low
     = Ok temp_sup_high)
  /\ (forall T, temp_turn_low <= T ->
        determine_feed_line_temp T temp_sup_high temp_sup_low
                                 temp_turn_high temp_turn_low
        = Ok temp_sup_low)
  /\ (forall T, temp_turn_high <= T <= temp_turn_low ->
        determine_feed_line_temp T temp_sup_high temp_sup_low
                                 temp_turn_high temp_turn_low
        = Ok (temp_sup_high
              - (T - temp_turn_high) / (temp_turn_low - temp_turn_high)
                * (temp_sup_high - temp_sup_low)))
  /\ (forall T,
        determine_feed_line_temp T temp_sup_high temp_sup_low
                                 temp_turn_high temp_turn_low
        = Ok (feed_line_curve temp_sup_high temp_sup_low
                              temp_turn_high temp_turn_low T))
  /\ continuity (feed_line_curve temp_sup_high temp_sup_low
                                 temp_turn_high temp_turn_low)
  /\ (forall T1 T2, T1 <= T2 ->
        feed_line_curve temp_sup_high temp_sup_low
                        temp_turn_high temp_turn_low T2
        <= feed_line_curve temp_sup_high temp_sup_low
                           temp_turn_high temp_turn_low T1).
Proof.
  intros Hturn Hsup. repeat split.
  - intros T HT. rewrite feed_line_total by exact Hturn.
    f_equal. now apply curve_below.
  - intros T HT. rewrite feed_line_total by exact Hturn.
    f_equal. now apply curve_above.
  - intros T HT. now apply feed_line_between.
  - intros T. now apply feed_line_total.
  - now apply curve_continuous.
  - intros T1 T2 H12. now apply curve_monotone.
Qed.

Lemma determine_feed_line_temp_curve_witness :
  determine_feed_line_temp (-12) 90 70 (-12) 15 = Ok 90
  /\ determine_feed_line_temp 15 90 70 (-12) 15 = Ok 70
  /\ continuity (feed_line_curve 90 70 (-12) 15).
Proof.
  destruct (determine_feed_line_temp_curve 90 70 (-12) 15
              ltac:(lra) ltac:(lra))
    as (Hlow & Hhigh & _ & _ & Hcont & _).
  split; [apply Hlow; lra | split; [apply Hhigh; lra | exact Hcont]].
Defined.

(** C10.  When both turning points coincide and the ambient temperature
    equals them, [determine_feed_line_temp] takes the interpolation branch
    and divides by [temp_turn_low - temp_turn_high = 0]: it has no value
    there, although on either side of that point it returns the fixed
    supply temperatures. *)
Theorem determine_feed_line_temp_degenerate_regime
  (T temp_sup_high temp_sup_low : R) :
  determine_feed_line_temp T temp_sup_high temp_sup_low T T
  = Err ZeroDivisionError
  /\ (forall T', T' < T ->
        determine_feed_line_temp T' temp_sup_high temp_sup_low T T
        = Ok temp_sup_high)
  /\ (forall T', T < T' ->
        determine_feed_line_temp T' temp_sup_high temp_sup_low T T
        = Ok temp_sup_low).
Proof.
  repeat split.
  - unfold determine_feed_line_temp.
    rewrite Rltb_false, Rgeb_true, Rleb_true by lra. cbn [andb].
    rewrite py_div_zero by ring. reflexivity.
  - intros T' H. unfold determine_feed_line_temp. now rewrite Rltb_true.
  - intros T' H. unfold determine_feed_line_temp.
    rewrite Rltb_false, Rgeb_true, Rleb_false by lra. reflexivity.
Qed.

Lemma determine_feed_line_temp_degenerate_regime_witness :
  determine_feed_line_temp 10 90 70 10 10 = Err ZeroDivisionError
  /\ determine_feed_line_temp 9 90 70 10 10 = Ok 90
  /\ determine_feed_line_temp 11 90 70 10 10 = Ok 70.
Proof.
  destruct (determine_feed_line_temp_degenerate_regime 10 90 70)
    as (Hat & Hbelow & Habove).
  split; [exact Hat | split; [apply Hbelow; lra | apply Habove; lra]].
Defined.

(** C3.  For a fixed positive mass flow, positive length and positive
    difference between inlet and ambient temperature, [heat_loss_pipe] has
    a value at every positive thermal resistance and is strictly
    decreasing in it: for [0 < R1 < R2] the loss at [R2] is below the loss
    at [R1].  (The heat capacity of the fluid must not be zero.) *)
Theorem heat_loss_pipe_decreasing_in_resistance
  (water : Water.t) (mass_flow length temperature_in ambient_temperature
                     R1 R2 : R) :
  Water.heat_capacity_cp water <> 0 ->
  0 < mass_flow ->
  0 < length ->
  0 < temperature_in - ambient_temperature ->
  0 < R1 ->
  R1 < R2 ->
  exists loss1 loss2,
    heat_loss_pipe water mass_flow length temperature_in R1
                   ambient_temperature = Ok loss1
    /\ heat_loss_pipe water mass_flow length temperature_in R2
                      ambient_temperature = Ok loss2
    /\ loss2 < loss1.
Proof.
  intros Hcp Hm HL HdT H1 H12.
  rewrite !(heat_loss_pipe_value water Hcp mass_flow length temperature_in
              ambient_temperature Hm HL) by lra.
  eexists. eexists. split; [reflexivity | split; [reflexivity |]].
  pose proof (weighted_decay_increasing water Hcp mass_flow length Hm HL
                R1 R2 H1 H12) as Hdecay.
  apply Rmult_lt_compat_l; [| lra].
  apply Rdiv_lt_0_compat; lra.
Qed.

Lemma heat_loss_pipe_decreasing_in_resistance_witness :
  exists loss1 loss2,
    heat_loss_pipe sample_water 1 100 80 1 10 = Ok loss1
    /\ heat_loss_pipe sample_water 1 100 80 2 10 = Ok loss2
    /\ loss2 < loss1.
Proof.
  apply (heat_loss_pipe_decreasing_in_resistance sample_water 1 100 80 10 1 2);
    cbn [Water.heat_capacity_cp sample_water]; lra.
Defined.

(** C4.  For every mass flow and every pair of distinct supply and return
    temperatures, converting the mass flow to a capacity and back returns
    exactly the mass flow.  (The heat capacity of the fluid must not be
    zero.) *)
Theorem capacity_to_diameter_pipe_capacity
  (water : Water.t) (mass_flow temperature_supply temperature_return : R) :
  Water.heat_capacity_cp water <> 0 ->
  temperature_supply <> temperature_return ->
  capacity_to_diameter water
    (pipe_capacity water mass_flow temperature_supply temperature_return)
    temperature_supply temperature_return
  = Ok mass_flow.
Proof.
  intros Hcp HT. unfold capacity_to_diameter, pipe_capacity.
  assert (Hden : Water.heat_capacity_cp water
                 * (temperature_supply - temperature_return) <> 0)
    by (apply Rmult_integral_contrapositive_currified; lra).
  rewrite py_div_ok by exact Hden. f_equal. field. split; lra.
Qed.

Lemma capacity_to_diameter_pipe_capacity_witness :
  capacity_to_diameter sample_water (pipe_capacity sample_water 5 80 50) 80 50
  = Ok 5.
Proof.
  apply (capacity_to_diameter_pipe_capacity sample_water 5 80 50);
    cbn [Water.heat_capacity_cp sample_water]; lra.
Defined.

(** C8 (amended).  When supply and return temperature are equal,
    [capacity_to_diameter] raises no [DomainError]: it performs no check
    and evaluates the division by [cp * (T - T) = 0] as it stands, which
    is a division by zero. *)
Theorem capacity_to_diameter_equal_temperatures
  (water : Water.t) (pipe_capacity T : R) :
  capacity_to_diameter water pipe_capacity T T = Err ZeroDivisionError
  /\ ~ raises (capacity_to_diameter water pipe_capacity T T) DomainError.
Proof.
  split.
  - apply capacity_to_diameter_zero_differential.
  - unfold raises. rewrite capacity_to_diameter_zero_differential.
    discriminate.
Qed.

Lemma capacity_to_diameter_equal_temperatures_witness :
  capacity_to_diameter sample_water 1000 50 50 = Err ZeroDivisionError.
Proof.
  exact (proj1 (capacity_to_diameter_equal_temperatures sample_water 1000 50)).
Defined.

(** C8 as stated fails: at 50 degrees on both sides no [DomainError] is
    raised. *)
Lemma capacity_to_diameter_no_domain_error :
  ~ raises (capacity_to_diameter sample_water 1000 50 50) DomainError.
Proof.
  unfold raises. rewrite capacity_to_diameter_zero_differential. discriminate.
Qed.

(** C5.  For positive diameter, diameter ratio and depth with
    [4 * depth > diameter * diameter_ratio], [thermal_resistance] returns
    exactly the buried-cylinder ground resistance
    [ln (4 depth / (diameter ratio)) / (2 PI k_ground)] plus the
    insulation resistance [ln ratio / (2 PI k_insulation)].  (The two
    conductivities must not be zero.) *)
Theorem thermal_resistance_formula
  (ground : Ground.t) (piping : Piping.t)
  (diameter diameter_ratio depth : R) :
  Ground.thermal_conductivity ground <> 0 ->
  Piping.thermal_conductivity piping <> 0 ->
  0 < diameter ->
  0 < diameter_ratio ->
  0 < depth ->
  4 * depth > diameter * diameter_ratio ->
  thermal_resistance ground piping diameter diameter_ratio depth
  = Ok (ln (4 * depth / (diameter * diameter_ratio))
        / (2 * PI * Ground.thermal_conductivity ground)
        + ln diameter_ratio
          / (2 * PI * Piping.thermal_conductivity piping)).
Proof.
  intros Hkg Hki Hd Hr Hz _.
  rewrite (thermal_resistance_value ground piping Hkg Hki) by assumption.
  f_equal. apply Rplus_comm.
Qed.

Lemma thermal_resistance_formula_witness :
  thermal_resistance sample_ground sample_piping (1 / 10) 2 1
  = Ok (ln (4 * 1 / (1 / 10 * 2)) / (2 * PI * (5 / 2))
        + ln 2 / (2 * PI * (1 / 40))).
Proof.
  apply (thermal_resistance_formula sample_ground sample_piping (1 / 10) 2 1);
    cbn [Ground.thermal_conductivity Piping.thermal_conductivity
         sample_ground sample_piping]; lra.
Defined.

(** C6 (amended).  Calling [thermal_resistance] with positive diameter,
    ratio and depth that violate [4 * depth > outer_diameter] raises no
    error: it returns the insulation resistance plus the ground term
    [ln (4 depth / outer_diameter) / (2 PI k_ground)], and that ground
    term is not positive (for a positive ground conductivity). *)
Theorem thermal_resistance_shallow_burial
  (ground : Ground.t) (piping : Piping.t)
  (diameter diameter_ratio depth : R) :
  0 < Ground.thermal_conductivity ground ->
  Piping.thermal_conductivity piping <> 0 ->
  0 < diameter ->
  0 < diameter_ratio ->
  0 < depth ->
  4 * depth <= diameter * diameter_ratio ->
  exists ground_term,
    thermal_resistance ground piping diameter diameter_ratio depth
    = Ok (ln diameter_ratio / (2 * PI * Piping.thermal_conductivity piping)
          + ground_term)
    /\ ground_term
       = ln (4 * depth / (diameter * diameter_ratio))
         / (2 * PI * Ground.thermal_conductivity ground)
    /\ ground_term <= 0.
Proof.
  intros Hkg Hki Hd Hr Hz Hshallow.
  eexists. split; [| split; [reflexivity |]].
  - apply thermal_resistance_value; try assumption. lra.
  - assert (Ho : 0 < diameter * diameter_ratio)
      by now apply Rmult_lt_0_compat.
    assert (Hq : 0 < 4 * depth / (diameter * diameter_ratio))
      by (apply Rdiv_lt_0_compat; lra).
    assert (Hq1 : 4 * depth / (diameter * diameter_ratio) <= 1).
    { apply (Rmult_le_reg_r (diameter * diameter_ratio)); [exact Ho |].
      unfold Rdiv. rewrite Rmult_assoc, Rinv_l by lra. lra. }
    pose proof (ln_nonpos _ Hq Hq1) as Hln.
    pose proof pi_bounds as [Hpi _].
    assert (Hden : 0 < / (2 * PI * Ground.thermal_conductivity ground)).
    { apply Rinv_0_lt_compat. apply Rmult_lt_0_compat; lra. }
    unfold Rdiv. nra.
Qed.

Lemma thermal_resistance_shallow_burial_witness :
  exists ground_term,
    thermal_resistance sample_ground sample_piping 1 (3 / 2) (1 / 10)
    = Ok (ln (3 / 2) / (2 * PI * (1 / 40)) + ground_term)
    /\ ground_term = ln (4 * (1 / 10) / (1 * (3 / 2))) / (2 * PI * (5 / 2))
    /\ ground_term <= 0.
Proof.
  apply (thermal_resistance_shallow_burial sample_ground sample_piping
           1 (3 / 2) (1 / 10));
    cbn [Ground.thermal_conductivity Piping.thermal_conductivity
         sample_ground sample_piping]; lra.
Defined.

(** C6 as stated fails: for diameter 1 m, ratio 1.5 and depth 0.1 m the
    function returns a resistance and raises no [DomainError]. *)
Lemma thermal_resistance_no_domain_error :
  is_ok (thermal_resistance sample_ground sample_piping 1 (3 / 2) (1 / 10))
  /\ ~ raises (thermal_resistance sample_ground sample_piping
                                  1 (3 / 2) (1 / 10)) DomainError.
Proof.
  assert (H : thermal_resistance sample_ground sample_piping 1 (3 / 2) (1 / 10)
              = Ok (ln (3 / 2) / (2 * PI * (1 / 40))
                    + ln (4 * (1 / 10) / (1 * (3 / 2)))
                      / (2 * PI * (5 / 2)))).
  { rewrite thermal_resistance_value;
      cbn [Ground.thermal_conductivity Piping.thermal_conductivity
           sample_ground sample_piping]; try lra.
    reflexivity. }
  split.
  - eexists. exact H.
  - unfold raises. rewrite H. discriminate.
Qed.

(** C7 (amended).  [max_flow_velocity] raises no [ConvergenceError] of
    its own: whatever the convergence status of the root finder, it
    returns the value the root finder hands back, and it fails only when
    the call of the root finder itself fails, with that error; when the
    catalog has as many diameters as [number_diameter] says and every call
    of the root finder returns, the sweep of [regression_thermal_capacity]
    stores the returned value for every diameter and goes on. *)
Theorem max_flow_velocity_ignores_convergence
  (water : Water.t) (piping : Piping.t)
  (fsolve : (R -> result R) -> R -> result Fsolve.t)
  (vel_init diameter roughness max_spec_pressure_loss : R) :
  (forall solution,
      fsolve (vel_calculation water diameter roughness
                              max_spec_pressure_loss) vel_init
      = Ok solution ->
      max_flow_velocity water fsolve vel_init diameter roughness
                        max_spec_pressure_loss
      = Ok (Fsolve.x solution))
  /\ (forall e,
        raises (max_flow_velocity water fsolve vel_init diameter roughness
                                  max_spec_pressure_loss) e
        <-> raises (fsolve (vel_calculation water diameter roughness
                                            max_spec_pressure_loss)
                           vel_init) e)
  /\ (length (Piping.diameter piping) = Piping.number_diameter piping ->
      (forall diam, In diam (Piping.diameter piping) ->
         is_ok (fsolve (vel_calculation water diam (Piping.roughness piping)
                                        (Piping.max_pr_loss piping))
                       vel_init)) ->
      velocity_sweep water piping fsolve vel_init (Piping.diameter piping) 0
                     (np_zeros (Piping.number_diameter piping))
      = Ok (map (fun diam =>
                   match fsolve (vel_calculation water diam
                                   (Piping.roughness piping)
                                   (Piping.max_pr_loss piping))
                                vel_init with
                   | Ok solution => Fsolve.x solution
                   | Err _ => 0
                   end)
                (Piping.diameter piping))).
Proof.
  split; [| split].
  - intros solution. apply max_flow_velocity_returns_iterate.
  - intros e. apply max_flow_velocity_raises.
  - apply velocity_sweep_catalog.
Qed.

Lemma max_flow_velocity_ignores_convergence_witness :
  max_flow_velocity sample_water stalled_solver (5 / 10) (1 / 2)
                    (1 / 1000) 250 = Ok (5 / 10)
  /\ velocity_sweep sample_water sample_piping stalled_solver (5 / 10)
                    [1 / 2; 1] 0 (np_zeros 2)
     = Ok [5 / 10; 5 / 10].
Proof.
  destruct (max_flow_velocity_ignores_convergence sample_water sample_piping
              stalled_solver (5 / 10) (1 / 2) (1 / 1000) 250)
    as (Hvalue & _ & Hsweep).
  split.
  - exact (Hvalue _ eq_refl).
  - apply (Hsweep eq_refl). intros diam _. eexists. reflexivity.
Defined.

(** C7 as stated fails: a run of the root finder that ends with status 5
    has not converged, and [max_flow_velocity] returns the initial guess
    instead of raising [ConvergenceError]. *)
Lemma max_flow_velocity_no_convergence_error :
  (exists solution,
      stalled_solver (vel_calculation sample_water (1 / 10) (1 / 1000) 250)
                     (5 / 10) = Ok solution
      /\ ~ Fsolve.converged solution)
  /\ max_flow_velocity sample_water stalled_solver (5 / 10) (1 / 10)
                       (1 / 1000) 250 = Ok (5 / 10)
  /\ ~ raises (max_flow_velocity sample_water stalled_solver (5 / 10)
                                 (1 / 10) (1 / 1000) 250) ConvergenceError.
Proof.
  split; [| split].
  - eexists. split; [reflexivity |].
    unfold Fsolve.converged. cbn. discriminate.
  - reflexivity.
  - unfold raises. cbn. discriminate.
Qed.

(** C2 (amended).  [regression_thermal_capacity] rounds the returned
    slope ['a'] to 6 decimal places and the returned intercept ['b'] to 3;
    [regression_heat_losses] rounds its slope ['a'] to 10 decimal places
    and its intercept ['b'] to 6.  In both, the coefficients are the
    rounded slope and intercept of the regression computed by
    [linregress]. *)
Theorem regression_rounding
  (water : Water.t) (ground : Ground.t) (piping : Piping.t)
  (fsolve : (R -> result R) -> R -> result Fsolve.t)
  (linregress : list R -> list R -> result Linregress.t)
  (t_supply t_return t_ambient : R)
  (thermal_capacity capacity : ThermalCapacity.t) (losses : HeatLosses.t) :
  regression_thermal_capacity water piping fsolve linregress
                              t_supply t_return = Ok capacity ->
  regression_heat_losses water ground piping linregress
                         t_supply t_ambient thermal_capacity = Ok losses ->
  (exists regression,
      linregress (map (fun p => p / 1000)
                      (ThermalCapacity.power_flow_max capacity))
                 (Piping.cost piping) = Ok regression
      /\ Params.a (ThermalCapacity.params capacity)
         = np_round (Linregress.slope regression) 6
      /\ Params.b (ThermalCapacity.params capacity)
         = np_round (Linregress.intercept regression) 3
      /\ on_decimal_grid (Params.a (ThermalCapacity.params capacity)) 6
      /\ on_decimal_grid (Params.b (ThermalCapacity.params capacity)) 3)
  /\ (exists regression,
         linregress (map (fun p => p / 1000)
                         (ThermalCapacity.power_flow_max thermal_capacity))
                    (map (fun h => h / 1000) (HeatLosses.heat_loss losses))
         = Ok regression
         /\ Params.a (HeatLosses.params losses)
            = np_round (Linregress.slope regression) 10
         /\ Params.b (HeatLosses.params losses)
            = np_round (Linregress.intercept regression) 6
         /\ on_decimal_grid (Params.a (HeatLosses.params losses)) 10
         /\ on_decimal_grid (Params.b (HeatLosses.params losses)) 6).
Proof.
  intros Hcap Hloss. split.
  - apply regression_thermal_capacity_params in Hcap
      as (regression & Hreg & Ha & Hb).
    exists regression. rewrite Ha, Hb.
    repeat split; try assumption; apply np_round_on_grid.
  - apply regression_heat_losses_params in Hloss
      as (regression & Hreg & Ha & Hb).
    exists regression. rewrite Ha, Hb.
    repeat split; try assumption; apply np_round_on_grid.
Qed.

Lemma regression_rounding_witness :
  exists capacity losses,
    regression_thermal_capacity sample_water sample_piping
                                (solver_reaching 2) least_squares 80 50
    = Ok capacity
    /\ regression_heat_losses sample_water sample_ground sample_piping
                              least_squares 80 10 sample_capacity
       = Ok losses
    /\ on_decimal_grid (Params.a (ThermalCapacity.params capacity)) 6
    /\ on_decimal_grid (Params.b (ThermalCapacity.params capacity)) 3
    /\ on_decimal_grid (Params.a (HeatLosses.params losses)) 10
    /\ on_decimal_grid (Params.b (HeatLosses.params losses)) 6.
Proof.
  destruct sample_capacity_regression as (capacity & Hcap).
  destruct sample_heat_loss_regression as (losses & Hloss & _).
  exists capacity, losses.
  destruct (regression_rounding sample_water sample_ground sample_piping
              (solver_reaching 2) least_squares 80 50 10
              sample_capacity capacity losses Hcap Hloss)
    as ((reg1 & _ & _ & _ & Ha1 & Hb1) & (reg2 & _ & _ & _ & Ha2 & Hb2)).
  repeat split; assumption.
Defined.

(** C2 as stated fails: on the sample catalog the slope returned by
    [regression_heat_losses] lies strictly between 0 and 1e-6, so it is
    not a number of 6 decimal places. *)
Lemma regression_heat_losses_slope_not_six_decimals :
  exists losses,
    regression_heat_losses sample_water sample_ground sample_piping
                           least_squares 80 10 sample_capacity
    = Ok losses
    /\ ~ on_decimal_grid (Params.a (HeatLosses.params losses)) 6.
Proof.
  destruct sample_heat_loss_regression as (losses & Hloss & Hlo & Hhi).
  exists losses. split; [exact Hloss |].
  now apply below_first_grid_point.
Qed.

(** * Further properties of the code *)

(** ** The control curve outside the regular regime *)

Lemma feed_line_inverted_below (sh sl th tl T : R) :
  T < th -> determine_feed_line_temp T sh sl th tl = Ok sh.
Proof. intros H. unfold determine_feed_line_temp. now rewrite Rltb_true. Qed.

Lemma feed_line_inverted_above (sh sl th tl T : R) :
  tl < th -> th <= T -> determine_feed_line_temp T sh sl th tl = Ok sl.
Proof.
  intros Hinv H. unfold determine_feed_line_temp.
  rewrite Rltb_false, Rgeb_true, Rleb_false by lra. reflexivity.
Qed.

Lemma feed_line_degenerate (sh sl T : R) :
  determine_feed_line_temp T sh sl T T = Err ZeroDivisionError.
Proof.
  unfold determine_feed_line_temp.
  rewrite Rltb_false, Rgeb_true, Rleb_true by lra. cbn [andb].
  rewrite py_div_zero by ring. reflexivity.
Qed.

(** Away from the point where both turning points and the ambient
    temperature coincide, the evaluator has a value. *)
Lemma feed_line_defined (sh sl th tl T : R) :
  ~ (T = th /\ th = tl) ->
  is_ok (determine_feed_line_temp T sh sl th tl).
Proof.
  intros Hne. unfold is_ok, determine_feed_line_temp.
  destruct (Rlt_dec T th) as [H1 | H1].
  - rewrite Rltb_true by exact H1. eexists. reflexivity.
  - rewrite Rltb_false, Rgeb_true by lra.
    destruct (Rle_dec T tl) as [H2 | H2].
    + rewrite Rleb_true by exact H2. cbn [andb].
      rewrite py_div_ok; [eexists; reflexivity |].
      intros Hz. apply Hne. split; lra.
    + rewrite Rleb_false by lra. eexists. reflexivity.
Qed.

(** X1.  In a regime with [temp_turn_high < temp_turn_low] and
    [temp_sup_high >= temp_sup_low] the supply temperature returned by
    [determine_feed_line_temp] always lies between the low and the high
    supply temperature. *)
Theorem determine_feed_line_temp_range
  (temp_sup_high temp_sup_low temp_turn_high temp_turn_low T : R) :
  temp_turn_high < temp_turn_low ->
  temp_sup_high >= temp_sup_low ->
  exists temp_supply,
    determine_feed_line_temp T temp_sup_high temp_sup_low
                             temp_turn_high temp_turn_low = Ok temp_supply
    /\ temp_sup_low <= temp_supply <= temp_sup_high.
Proof.
  intros Hturn Hsup. eexists. split; [now apply feed_line_total |].
  pose proof (curve_below temp_sup_high temp_sup_low temp_turn_high
                temp_turn_low Hturn temp_turn_high ltac:(lra)) as Hhi.
  pose proof (curve_above temp_sup_high temp_sup_low temp_turn_high
                temp_turn_low Hturn temp_turn_low ltac:(lra)) as Hlo.
  destruct (Rle_dec T temp_turn_high) as [H1 | H1].
  - rewrite curve_below by assumption. lra.
  - destruct (Rle_dec temp_turn_low T) as [H2 | H2].
    + rewrite curve_above by assumption. lra.
    + pose proof (curve_monotone temp_sup_high temp_sup_low temp_turn_high
                    temp_turn_low Hturn Hsup temp_turn_high T ltac:(lra)).
      pose proof (curve_monotone temp_sup_high temp_sup_low temp_turn_high
                    temp_turn_low Hturn Hsup T temp_turn_low ltac:(lra)).
      lra.
Qed.

Lemma determine_feed_line_temp_range_witness :
  exists temp_supply,
    determine_feed_line_temp 3 90 70 (-12) 15 = Ok temp_supply
    /\ 70 <= temp_supply <= 90.
Proof.
  apply (determine_feed_line_temp_range 90 70 (-12) 15 3); lra.
Defined.

(** X2.  [determine_feed_line_temp] has a value for every input except
    the one where the ambient temperature and both turning points are the
    same number; there it ends with a division by zero. *)
Theorem determine_feed_line_temp_defined_iff
  (T temp_sup_high temp_sup_low temp_turn_high temp_turn_low : R) :
  (is_ok (determine_feed_line_temp T temp_sup_high temp_sup_low
                                   temp_turn_high temp_turn_low)
   <-> ~ (T = temp_turn_high /\ temp_turn_high = temp_turn_low))
  /\ (forall e,
        raises (determine_feed_line_temp T temp_sup_high temp_sup_low
                                         temp_turn_high temp_turn_low) e ->
        e = ZeroDivisionError).
Proof.
  split; [split |].
  - intros [v Hv] [H1 H2]. subst temp_turn_low temp_turn_high.
    rewrite feed_line_degenerate in Hv. discriminate.
  - apply feed_line_defined.
  - intros e He. unfold raises in He.
    destruct (Req_dec_T T temp_turn_high) as [H1 | H1];
      [destruct (Req_dec_T temp_turn_high temp_turn_low) as [H2 | H2] |].
    + subst temp_turn_low temp_turn_high.
      rewrite feed_line_degenerate in He. now injection He as <-.
    + destruct (feed_line_defined temp_sup_high temp_sup_low temp_turn_high
                  temp_turn_low T) as [v Hv]; [intros [_ H]; contradiction |].
      rewrite Hv in He. discriminate.
    + destruct (feed_line_defined temp_sup_high temp_sup_low temp_turn_high
                  temp_turn_low T) as [v Hv]; [intros [H _]; contradiction |].
      rewrite Hv in He. discriminate.
Qed.

Lemma determine_feed_line_temp_defined_iff_witness :
  is_ok (determine_feed_line_temp 10 90 70 10 12).
Proof.
  apply (proj1 (determine_feed_line_temp_defined_iff 10 90 70 10 12)).
  intros [_ H]. lra.
Defined.

(** X3.  With the turning points in the wrong order
    ([temp_turn_low < temp_turn_high]) [determine_feed_line_temp] never
    interpolates: it returns the high supply temperature below the high
    turning point and the low supply temperature from there on, so the
    curve is a step, which is not continuous at the high turning point
    unless both supply temperatures are equal. *)
Theorem determine_feed_line_temp_inverted_turning_points
  (temp_sup_high temp_sup_low temp_turn_high temp_turn_low : R) :
  temp_turn_low < temp_turn_high ->
  (forall T, T < temp_turn_high ->
     determine_feed_line_temp T temp_sup_high temp_sup_low
                              temp_turn_high temp_turn_low
     = Ok temp_sup_high)
  /\ (forall T, temp_turn_high <= T ->
        determine_feed_line_temp T temp_sup_high temp_sup_low
                                 temp_turn_high temp_turn_low
        = Ok temp_sup_low)
  /\ (temp_sup_high <> temp_sup_low ->
      ~ continuity_pt (feed_line_curve temp_sup_high temp_sup_low
                                       temp_turn_high temp_turn_low)
                      temp_turn_high).
Proof.
  intros Hinv. split; [| split].
  - intros T HT. now apply feed_line_inverted_below.
  - intros T HT. now apply feed_line_inverted_above.
  - intros Hne Hcont.
    assert (Hgap : 0 < Rabs (temp_sup_high - temp_sup_low))
      by (apply Rabs_pos_lt; lra).
    destruct (Hcont _ Hgap) as (delta & Hdelta & Hnear).
    specialize (Hnear (temp_turn_high - delta / 2)).
    assert (Hin : D_x no_cond temp_turn_high (temp_turn_high - delta / 2)
                  /\ Rdist (temp_turn_high - delta / 2) temp_turn_high < delta).
    { split; [split; [exact I | lra] |].
      unfold Rdist. rewrite Rabs_left by lra. lra. }
    apply Hnear in Hin. unfold Rdist, feed_line_curve in Hin.
    rewrite feed_line_inverted_below in Hin by lra.
    rewrite feed_line_inverted_above in Hin by lra.
    simpl in Hin. unfold Rdist in Hin. lra.
Qed.

Lemma determine_feed_line_temp_inverted_turning_points_witness :
  determine_feed_line_temp 14 90 70 15 (-12) = Ok 90
  /\ determine_feed_line_temp 15 90 70 15 (-12) = Ok 70
  /\ ~ continuity_pt (feed_line_curve 90 70 15 (-12)) 15.
Proof.
  destruct (determine_feed_line_temp_inverted_turning_points 90 70 15 (-12)
              ltac:(lra)) as (Hbelow & Habove & Hjump).
  split; [apply Hbelow; lra | split; [apply Habove; lra | apply Hjump; lra]].
Defined.

(** ** Flow and capacity *)

(** X4.  For a fluid of positive density, a pipe of larger diameter
    carrying water at least as fast moves strictly more mass, and all mass
    flows at positive velocity are positive; with a positive heat capacity
    and a supply temperature above the return temperature the pipe
    capacities are ordered the same way. *)
Theorem mass_flow_increasing
  (water : Water.t) (v1 v2 d1 d2 temperature_supply temperature_return : R) :
  0 < Water.density water ->
  0 < v1 -> v1 <= v2 ->
  0 < d1 -> d1 < d2 ->
  0 < mass_flow water v1 d1 < mass_flow water v2 d2
  /\ (0 < Water.heat_capacity_cp water ->
      temperature_return < temperature_supply ->
      pipe_capacity water (mass_flow water v1 d1)
                    temperature_supply temperature_return
      < pipe_capacity water (mass_flow water v2 d2)
                      temperature_supply temperature_return).
Proof.
  intros Hrho Hv1 Hv12 Hd1 Hd12.
  pose proof pi_bounds as [Hpi _].
  assert (Hk : 0 < Water.density water * (PI / 4))
    by (apply Rmult_lt_0_compat; lra).
  assert (Hsq : v1 * (d1 * d1) < v2 * (d2 * d2)).
  { apply Rle_lt_trans with (v2 * (d1 * d1)).
    - apply Rmult_le_compat_r; nra.
    - apply Rmult_lt_compat_l; nra. }
  assert (Hpos : 0 < v1 * (d1 * d1))
    by (apply Rmult_lt_0_compat; [lra | nra]).
  assert (Hm : forall v d, mass_flow water v d
                           = Water.density water * (PI / 4) * (v * (d * d)))
    by (intros v d; unfold mass_flow; ring).
  rewrite !Hm.
  assert (Hlt : Water.density water * (PI / 4) * (v1 * (d1 * d1))
                < Water.density water * (PI / 4) * (v2 * (d2 * d2)))
    by now apply Rmult_lt_compat_l.
  split.
  - split; [now apply Rmult_lt_0_compat | exact Hlt].
  - intros Hcp HT. unfold pipe_capacity.
    apply Rmult_lt_compat_r; [lra |].
    apply Rmult_lt_compat_r; [exact Hcp | exact Hlt].
Qed.

Lemma mass_flow_increasing_witness :
  0 < mass_flow sample_water 1 (1 / 10) < mass_flow sample_water 2 (2 / 10).
Proof.
  apply (mass_flow_increasing sample_water 1 2 (1 / 10) (2 / 10) 80 50);
    cbn [Water.density sample_water]; lra.
Defined.

(** X5.  For distinct supply and return temperatures (and a nonzero heat
    capacity) the mass flow computed by [capacity_to_diameter] from a
    capacity carries exactly that capacity: [pipe_capacity] undoes
    [capacity_to_diameter]. *)
Theorem pipe_capacity_capacity_to_diameter
  (water : Water.t) (capacity temperature_supply temperature_return : R) :
  Water.heat_capacity_cp water <> 0 ->
  temperature_supply <> temperature_return ->
  exists flow,
    capacity_to_diameter water capacity temperature_supply temperature_return
    = Ok flow
    /\ pipe_capacity water flow temperature_supply temperature_return
       = capacity.
Proof.
  intros Hcp HT. unfold capacity_to_diameter, pipe_capacity.
  assert (Hden : Water.heat_capacity_cp water
                 * (temperature_supply - temperature_return) <> 0)
    by (apply Rmult_integral_contrapositive_currified; lra).
  rewrite py_div_ok by exact Hden. eexists. split; [reflexivity |].
  field. split; lra.
Qed.

Lemma pipe_capacity_capacity_to_diameter_witness :
  exists flow,
    capacity_to_diameter sample_water 126000 80 50 = Ok flow
    /\ pipe_capacity sample_water flow 80 50 = 126000.
Proof.
  apply (pipe_capacity_capacity_to_diameter sample_water 126000 80 50);
    cbn [Water.heat_capacity_cp sample_water]; lra.
Defined.

(** X6.  [capacity_to_diameter] has a value exactly when the heat
    capacity is not zero and the two temperatures differ; every failure is
    a division by zero. *)
Theorem capacity_to_diameter_defined_iff
  (water : Water.t) (capacity temperature_supply temperature_return : R) :
  (is_ok (capacity_to_diameter water capacity temperature_supply
                               temperature_return)
   <-> Water.heat_capacity_cp water <> 0
       /\ temperature_supply <> temperature_return)
  /\ (forall e,
        raises (capacity_to_diameter water capacity temperature_supply
                                     temperature_return) e ->
        e = ZeroDivisionError).
Proof.
  unfold capacity_to_diameter, raises, is_ok. split; [split |].
  - intros [m Hm]. apply py_div_inv in Hm as [Hden _]. split.
    + intros H0. apply Hden. rewrite H0. ring.
    + intros H0. apply Hden. rewrite H0. ring.
  - intros [Hcp HT]. rewrite py_div_ok; [eexists; reflexivity |].
    apply Rmult_integral_contrapositive_currified; lra.
  - intros e. unfold py_div.
    destruct (Reqb _ 0); intros H; [now injection H as <- | discriminate].
Qed.

Lemma capacity_to_diameter_defined_iff_witness :
  is_ok (capacity_to_diameter sample_water 126000 80 50).
Proof.
  apply (proj1 (capacity_to_diameter_defined_iff sample_water 126000 80 50)).
  cbn [Water.heat_capacity_cp sample_water]. split; lra.
Defined.

(** ** Thermal resistance: domain, similarity and sign *)

Lemma np_log_inv (x l : R) : np_log x = Ok l -> 0 < x /\ l = ln x.
Proof.
  unfold np_log, Rltb. destruct (Rlt_dec 0 x); intros H; [| discriminate].
  injection H as <-. now split.
Qed.

Lemma two_pi_k_zero_iff (k : R) : 2 * PI * k = 0 <-> k = 0.
Proof.
  pose proof pi_bounds as [Hpi _]. split; intros H.
  - apply Rmult_integral in H as [H | H]; [lra | exact H].
  - rewrite H. ring.
Qed.

(** X7.  [thermal_resistance] has a value exactly when the outer diameter
    is not zero, the ratio of four times the depth to the outer diameter
    is positive, the diameter ratio is positive, and both conductivities
    are nonzero. *)
Theorem thermal_resistance_defined_iff
  (ground : Ground.t) (piping : Piping.t)
  (diameter diameter_ratio depth : R) :
  is_ok (thermal_resistance ground piping diameter diameter_ratio depth)
  <-> diameter * diameter_ratio <> 0
      /\ 0 < 4 * depth / (diameter * diameter_ratio)
      /\ Ground.thermal_conductivity ground <> 0
      /\ 0 < diameter_ratio
      /\ Piping.thermal_conductivity piping <> 0.
Proof.
  unfold is_ok, thermal_resistance. split.
  - intros [r H].
    apply bind_inv in H as (q & Hq & H).
    apply bind_inv in H as (lg & Hlg & H).
    apply bind_inv in H as (rg & Hrg & H).
    apply bind_inv in H as (li & Hli & H).
    apply bind_inv in H as (ri & Hri & _).
    apply py_div_inv in Hq as [Ho ->].
    apply np_log_inv in Hlg as [Hpos _].
    apply py_div_inv in Hrg as [Hkg _].
    apply np_log_inv in Hli as [Hr _].
    apply py_div_inv in Hri as [Hki _].
    repeat split; try assumption.
    + intros H0. apply Hkg. now apply two_pi_k_zero_iff.
    + intros H0. apply Hki. now apply two_pi_k_zero_iff.
  - intros (Ho & Hpos & Hkg & Hr & Hki).
    rewrite py_div_ok by exact Ho. cbn [bind].
    rewrite np_log_ok by exact Hpos. cbn [bind].
    rewrite py_div_ok by (intros H0; apply Hkg; now apply two_pi_k_zero_iff).
    cbn [bind]. rewrite np_log_ok by exact Hr. cbn [bind].
    rewrite py_div_ok by (intros H0; apply Hki; now apply two_pi_k_zero_iff).
    eexists. reflexivity.
Qed.

Lemma thermal_resistance_defined_iff_witness :
  is_ok (thermal_resistance sample_ground sample_piping (1 / 10) 2 1).
Proof.
  apply (proj2 (thermal_resistance_defined_iff sample_ground sample_piping
                  (1 / 10) 2 1)).
  cbn [Ground.thermal_conductivity Piping.thermal_conductivity
       sample_ground sample_piping].
  repeat split; lra.
Defined.

(** X8.  [thermal_resistance] depends on diameter and depth only through
    their ratio: scaling both by the same nonzero factor changes neither
    the value nor the error. *)
Theorem thermal_resistance_similar_pipes
  (ground : Ground.t) (piping : Piping.t)
  (scale diameter diameter_ratio depth : R) :
  scale <> 0 ->
  thermal_resistance ground piping (scale * diameter) diameter_ratio
                     (scale * depth)
  = thermal_resistance ground piping diameter diameter_ratio depth.
Proof.
  intros Hs. unfold thermal_resistance.
  destruct (Req_dec_T (diameter * diameter_ratio) 0) as [H0 | H0].
  - rewrite !py_div_zero; [reflexivity | exact H0 |].
    rewrite Rmult_assoc, H0. ring.
  - assert (Hs0 : scale * diameter * diameter_ratio <> 0).
    { rewrite Rmult_assoc.
      now apply Rmult_integral_contrapositive_currified. }
    rewrite !py_div_ok by assumption. cbn [bind].
    assert (Hd : diameter <> 0) by (intros Hd; apply H0; rewrite Hd; ring).
    assert (Hr : diameter_ratio <> 0)
      by (intros Hr; apply H0; rewrite Hr; ring).
    replace (4 * (scale * depth) / (scale * diameter * diameter_ratio))
      with (4 * depth / (diameter * diameter_ratio))
      by (field; repeat split; assumption).
    reflexivity.
Qed.

Lemma thermal_resistance_similar_pipes_witness :
  thermal_resistance sample_ground sample_piping (3 * (1 / 10)) 2 (3 * 1)
  = thermal_resistance sample_ground sample_piping (1 / 10) 2 1.
Proof.
  apply (thermal_resistance_similar_pipes sample_ground sample_piping
           3 (1 / 10) 2 1).
  lra.
Defined.

(** X9.  For positive conductivities, a positive diameter, a diameter
    ratio of at least one and a burial with [4 * depth] above the outer
    diameter, the thermal resistance is strictly positive, and burying the
    same pipe deeper strictly increases it. *)
Theorem thermal_resistance_positive_and_increasing_in_depth
  (ground : Ground.t) (piping : Piping.t)
  (diameter diameter_ratio depth deeper : R) :
  0 < Ground.thermal_conductivity ground ->
  0 < Piping.thermal_conductivity piping ->
  0 < diameter ->
  1 <= diameter_ratio ->
  diameter * diameter_ratio < 4 * depth ->
  depth < deeper ->
  exists r r',
    thermal_resistance ground piping diameter diameter_ratio depth = Ok r
    /\ thermal_resistance ground piping diameter diameter_ratio deeper
       = Ok r'
    /\ 0 < r < r'.
Proof.
  intros Hkg Hki Hd Hq Hz Hdeep.
  assert (Ho : 0 < diameter * diameter_ratio) by (apply Rmult_lt_0_compat; lra).
  rewrite !(thermal_resistance_value ground piping) by lra.
  eexists. eexists. split; [reflexivity | split; [reflexivity |]].
  pose proof pi_bounds as [Hpi _].
  assert (Hig : 0 < / (2 * PI * Ground.thermal_conductivity ground))
    by (apply Rinv_0_lt_compat; apply Rmult_lt_0_compat; lra).
  assert (Hii : 0 < / (2 * PI * Piping.thermal_conductivity piping))
    by (apply Rinv_0_lt_compat; apply Rmult_lt_0_compat; lra).
  assert (Hli : 0 <= ln diameter_ratio).
  { destruct Hq as [Hq | <-]; [| rewrite ln_1; lra].
    left. rewrite <- ln_1. apply ln_increasing; lra. }
  assert (Hq1 : 1 < 4 * depth / (diameter * diameter_ratio)).
  { apply (Rmult_lt_reg_r (diameter * diameter_ratio)); [exact Ho |].
    unfold Rdiv. rewrite Rmult_assoc, Rinv_l by lra. lra. }
  assert (Hq2 : 4 * depth / (diameter * diameter_ratio)
                < 4 * deeper / (diameter * diameter_ratio)).
  { unfold Rdiv. apply Rmult_lt_compat_r; [now apply Rinv_0_lt_compat | lra]. }
  assert (Hl1 : 0 < ln (4 * depth / (diameter * diameter_ratio)))
    by (rewrite <- ln_1; apply ln_increasing; lra).
  assert (Hl2 : ln (4 * depth / (diameter * diameter_ratio))
                < ln (4 * deeper / (diameter * diameter_ratio)))
    by (apply ln_increasing; lra).
  unfold Rdiv at 1 3 5 7. split; nra.
Qed.

Lemma thermal_resistance_positive_and_increasing_in_depth_witness :
  exists r r',
    thermal_resistance sample_ground sample_piping (1 / 10) 2 1 = Ok r
    /\ thermal_resistance sample_ground sample_piping (1 / 10) 2 2 = Ok r'
    /\ 0 < r < r'.
Proof.
  apply (thermal_resistance_positive_and_increasing_in_depth
           sample_ground sample_piping (1 / 10) 2 1 2);
    cbn [Ground.thermal_conductivity Piping.thermal_conductivity
         sample_ground sample_piping]; lra.
Defined.

(** ** Heat loss: size, limit, linearity and domain *)

Section HeatLossSize.

Variable water : Water.t.
Local Abbreviation cp := (Water.heat_capacity_cp water).
Hypothesis cp_pos : 0 < cp.

Variables m L : R.
Hypothesis m_pos : 0 < m.
Hypothesis L_pos : 0 < L.

(** The share of the inlet temperature difference lost per metre: it is
    positive and stays below the reciprocal of the resistance. *)
Lemma loss_factor_bounds (Rp : R) :
  0 < Rp ->
  0 < (m * cp - m * cp * exp (- L / (m * cp * Rp))) / L < / Rp.
Proof.
  intros HR.
  assert (Hc : 0 < m * cp) by now apply Rmult_lt_0_compat.
  set (c := m * cp) in *.
  set (x := L / (c * Rp)).
  assert (Hx : 0 < x)
    by (apply Rdiv_lt_0_compat; [lra | now apply Rmult_lt_0_compat]).
  replace (- L / (c * Rp)) with (- x) by (unfold x; field; lra).
  assert (Elo : 1 - x < exp (- x))
    by (pose proof (exp_ineq1 (- x) ltac:(lra)); lra).
  assert (Ehi : exp (- x) < 1).
  { rewrite <- exp_0. apply exp_increasing. lra. }
  set (E := exp (- x)) in *.
  assert (HiL : 0 < / L) by now apply Rinv_0_lt_compat.
  split.
  - apply Rdiv_lt_0_compat; [nra | lra].
  - replace (/ Rp) with (c * x / L) by (unfold x; field; lra).
    unfold Rdiv. apply Rmult_lt_compat_r; [exact HiL | nra].
Qed.

Lemma heat_loss_pipe_proportional (Tin Tamb Rp : R) :
  0 < Rp ->
  heat_loss_pipe water m L Tin Rp Tamb
  = Ok ((Tin - Tamb)
        * ((m * cp - m * cp * exp (- L / (m * cp * Rp))) / L)).
Proof.
  intros HR.
  rewrite (heat_loss_pipe_value water ltac:(lra) m L Tin Tamb m_pos L_pos Rp HR).
  f_equal. field. lra.
Qed.

End HeatLossSize.

(** X10.  For a positive heat capacity, mass flow, length and resistance
    and an inlet warmer than the surroundings, [heat_loss_pipe] returns a
    strictly positive loss that stays strictly below the loss per metre at
    the inlet, [(temperature_in - ambient_temperature) / resistance]. *)
Theorem heat_loss_pipe_between_zero_and_inlet_loss
  (water : Water.t)
  (mass_flow length temperature_in resistance ambient_temperature : R) :
  0 < Water.heat_capacity_cp water ->
  0 < mass_flow ->
  0 < length ->
  0 < resistance ->
  ambient_temperature < temperature_in ->
  exists loss,
    heat_loss_pipe water mass_flow length temperature_in resistance
                   ambient_temperature = Ok loss
    /\ 0 < loss < (temperature_in - ambient_temperature) / resistance.
Proof.
  intros Hcp Hm HL HR HT.
  rewrite (heat_loss_pipe_proportional water Hcp mass_flow length Hm HL)
    by exact HR.
  eexists. split; [reflexivity |].
  pose proof (loss_factor_bounds water Hcp mass_flow length Hm HL
                resistance HR) as [Hlo Hhi].
  unfold Rdiv at 2. split; [apply Rmult_lt_0_compat; lra |].
  apply Rmult_lt_compat_l; lra.
Qed.

Lemma heat_loss_pipe_between_zero_and_inlet_loss_witness :
  exists loss,
    heat_loss_pipe sample_water 1 100 80 2 10 = Ok loss
    /\ 0 < loss < (80 - 10) / 2.
Proof.
  apply (heat_loss_pipe_between_zero_and_inlet_loss sample_water 1 100 80 2 10);
    cbn [Water.heat_capacity_cp sample_water]; lra.
Defined.

(** X11.  Perfect insulation: for a positive heat capacity, mass flow and
    length and an inlet warmer than the surroundings, the heat loss falls
    below any positive bound once the resistance is large enough. *)
Theorem heat_loss_pipe_vanishes_with_insulation
  (water : Water.t)
  (mass_flow length temperature_in ambient_temperature bound : R) :
  0 < Water.heat_capacity_cp water ->
  0 < mass_flow ->
  0 < length ->
  ambient_temperature < temperature_in ->
  0 < bound ->
  exists resistance0,
    0 < resistance0
    /\ forall resistance,
         resistance0 < resistance ->
         exists loss,
           heat_loss_pipe water mass_flow length temperature_in resistance
                          ambient_temperature = Ok loss
           /\ 0 < loss < bound.
Proof.
  intros Hcp Hm HL HT Hb.
  exists ((temperature_in - ambient_temperature) / bound). split.
  - apply Rdiv_lt_0_compat; lra.
  - intros resistance HR.
    assert (HR0 : 0 < resistance).
    { apply Rlt_trans with ((temperature_in - ambient_temperature) / bound);
        [apply Rdiv_lt_0_compat; lra | exact HR]. }
    rewrite (heat_loss_pipe_proportional water Hcp mass_flow length Hm HL)
      by exact HR0.
    eexists. split; [reflexivity |].
    pose proof (loss_factor_bounds water Hcp mass_flow length Hm HL
                  resistance HR0) as [Hlo Hhi].
    split; [apply Rmult_lt_0_compat; lra |].
    apply Rlt_trans
      with ((temperature_in - ambient_temperature) * / resistance);
      [apply Rmult_lt_compat_l; lra |].
    apply (Rmult_lt_reg_r resistance); [exact HR0 |].
    rewrite Rmult_assoc, Rinv_l by lra.
    apply (Rmult_lt_compat_r bound) in HR; [| exact Hb].
    unfold Rdiv in HR. rewrite Rmult_assoc, Rinv_l in HR by lra. lra.
Qed.

Lemma heat_loss_pipe_vanishes_with_insulation_witness :
  exists resistance0,
    0 < resistance0
    /\ forall resistance,
         resistance0 < resistance ->
         exists loss,
           heat_loss_pipe sample_water 1 100 80 resistance 10 = Ok loss
           /\ 0 < loss < 1 / 1000.
Proof.
  apply (heat_loss_pipe_vanishes_with_insulation sample_water 1 100 80 10
           (1 / 1000));
    cbn [Water.heat_capacity_cp sample_water]; lra.
Defined.

(** X12.  For a positive heat capacity, mass flow, length and resistance
    the heat loss is the temperature difference between inlet and
    surroundings times a positive factor that does not depend on the
    temperatures: it is zero for equal temperatures, changes sign with the
    difference, and is the same in Kelvin and in degrees Celsius. *)
Theorem heat_loss_pipe_linear_in_temperature_difference
  (water : Water.t) (mass_flow length resistance : R) :
  0 < Water.heat_capacity_cp water ->
  0 < mass_flow ->
  0 < length ->
  0 < resistance ->
  exists factor,
    0 < factor
    /\ forall temperature_in ambient_temperature,
         heat_loss_pipe water mass_flow length temperature_in resistance
                        ambient_temperature
         = Ok ((temperature_in - ambient_temperature) * factor).
Proof.
  intros Hcp Hm HL HR. eexists. split.
  - apply (loss_factor_bounds water Hcp mass_flow length Hm HL resistance HR).
  - intros temperature_in ambient_temperature.
    now apply heat_loss_pipe_proportional.
Qed.

Lemma heat_loss_pipe_linear_in_temperature_difference_witness :
  exists factor,
    0 < factor
    /\ forall temperature_in ambient_temperature,
         heat_loss_pipe sample_water 1 100 temperature_in 2
                        ambient_temperature
         = Ok ((temperature_in - ambient_temperature) * factor).
Proof.
  apply (heat_loss_pipe_linear_in_temperature_difference sample_water 1 100 2);
    cbn [Water.heat_capacity_cp sample_water]; lra.
Defined.



(** ** The friction factor and the roots of the residual *)

Section Friction.

Variable water : Water.t.
Local Abbreviation rho := (Water.density water).
Local Abbreviation mu := (Water.dynamic_viscosity water).
Hypothesis rho_pos : 0 < rho.
Hypothesis mu_pos : 0 < mu.

Variables diameter roughness : R.
Hypothesis diameter_pos : 0 < diameter.
Hypothesis roughness_pos : 0 < roughness.

(** The argument of the logarithm in the Haaland formula. *)
Local Abbreviation haaland vel :=
  (Rpower (roughness / (37 / 10 * diameter)) (111 / 100)
   + 69 / 10 / (rho * vel * diameter / mu)).

Lemma reynolds_positive (vel : R) : 0 < vel -> 0 < rho * vel * diameter / mu.
Proof using All.
  intros Hv. apply Rdiv_lt_0_compat; [| exact mu_pos].
  apply Rmult_lt_0_compat; [apply Rmult_lt_0_compat |]; assumption.
Qed.

Lemma haaland_positive (vel : R) : 0 < vel -> 0 < haaland vel.
Proof using All.
  intros Hv. pose proof (reynolds_positive vel Hv) as HRe.
  assert (0 < Rpower (roughness / (37 / 10 * diameter)) (111 / 100))
    by apply exp_pos.
  assert (0 < 69 / 10 / (rho * vel * diameter / mu))
    by (apply Rdiv_lt_0_compat; lra).
  lra.
Qed.

Lemma friction_factor_value (vel : R) :
  0 < vel ->
  haaland vel <> 1 ->
  friction_factor water diameter roughness vel
  = Ok (/ (- (18 / 10) * (ln (haaland vel) / ln 10)
           * (- (18 / 10) * (ln (haaland vel) / ln 10)))).
Proof using All.
  intros Hv Hne. unfold friction_factor.
  pose proof (reynolds_positive vel Hv) as HRe.
  pose proof (haaland_positive vel Hv) as Harg.
  rewrite py_div_ok by lra. cbn [bind].
  rewrite py_div_ok by lra. cbn [bind].
  assert (Hrel : 0 < roughness / (37 / 10 * diameter))
    by (apply Rdiv_lt_0_compat; lra).
  unfold py_pow. rewrite Rltb_false, Reqb_false by lra. cbn [bind].
  rewrite py_div_ok by lra. cbn [bind].
  unfold np_log10. rewrite Rltb_true by exact Harg. cbn [bind].
  unfold py_pow_m2. rewrite Reqb_false; [reflexivity |].
  assert (Hl10 : 0 < ln 10) by (rewrite <- ln_1; apply ln_increasing; lra).
  assert (Hln : ln (haaland vel) <> 0).
  { intros H0. apply Hne. rewrite <- ln_1 in H0.
    apply ln_inv in H0; [exact H0 | exact Harg | lra]. }
  assert (Hq : ln (haaland vel) / ln 10 <> 0).
  { unfold Rdiv. apply Rmult_integral_contrapositive_currified;
      [exact Hln | apply Rinv_neq_0_compat; lra]. }
  intros H0. apply Hq. lra.
Qed.

(** In turbulent flow through a pipe no rougher than it is wide, the
    argument of the logarithm stays below one. *)
Lemma haaland_below_one (vel : R) :
  roughness <= diameter ->
  2300 <= rho * vel * diameter / mu ->
  haaland vel < 1.
Proof using All.
  intros Hrough HRe.
  assert (Hrel : 0 < roughness / (37 / 10 * diameter) <= 10 / 37).
  { split; [apply Rdiv_lt_0_compat; lra |].
    apply (Rmult_le_reg_r (37 / 10 * diameter)); [lra |].
    unfold Rdiv at 1. rewrite Rmult_assoc, Rinv_l by lra. lra. }
  pose proof (Rpower_le_base (roughness / (37 / 10 * diameter)) (111 / 100)
                ltac:(lra) ltac:(lra) ltac:(lra)) as Hpow.
  assert (Hvisc : 69 / 10 / (rho * vel * diameter / mu) <= 69 / 10 / 2300).
  { unfold Rdiv at 1 4. apply Rmult_le_compat_l; [lra |].
    apply Rinv_le_contravar; lra. }
  lra.
Qed.

End Friction.

(** X14.  For positive density, viscosity, diameter and roughness, in
    turbulent flow (Reynolds number at least 2300) through a pipe whose
    roughness does not exceed its diameter, the Haaland friction factor
    computed by the residual of [max_flow_velocity] is positive and
    strictly decreases as the velocity grows. *)
Theorem friction_factor_decreasing_in_velocity
  (water : Water.t) (diameter roughness v1 v2 : R) :
  0 < Water.density water ->
  0 < Water.dynamic_viscosity water ->
  0 < diameter ->
  0 < roughness ->
  roughness <= diameter ->
  2300 <= Water.density water * v1 * diameter
          / Water.dynamic_viscosity water ->
  v1 < v2 ->
  exists f1 f2,
    friction_factor water diameter roughness v1 = Ok f1
    /\ friction_factor water diameter roughness v2 = Ok f2
    /\ 0 < f2 < f1.
Proof.
  intros Hrho Hmu Hd Hk Hrough HRe1 Hv.
  assert (Hv1 : 0 < v1).
  { destruct (Rlt_dec 0 v1) as [H | H]; [exact H | exfalso].
    assert (Hle : Water.density water * v1 * diameter
                  / Water.dynamic_viscosity water <= 0); [| lra].
    assert (0 < / Water.dynamic_viscosity water)
      by now apply Rinv_0_lt_compat.
    assert (Hrd : 0 < Water.density water * diameter)
      by now apply Rmult_lt_0_compat.
    assert (Hnum : Water.density water * v1 * diameter <= 0).
    { replace (Water.density water * v1 * diameter)
        with (Water.density water * diameter * v1) by ring.
      nra. }
    unfold Rdiv. nra. }
  assert (Hv2 : 0 < v2) by lra.
  pose proof (reynolds_positive water Hrho Hmu diameter roughness Hd Hk v1 Hv1) as HR1.
  pose proof (reynolds_positive water Hrho Hmu diameter roughness Hd Hk v2 Hv2) as HR2.
  assert (HRe12 : Water.density water * v1 * diameter
                  / Water.dynamic_viscosity water
                  < Water.density water * v2 * diameter
                    / Water.dynamic_viscosity water).
  { unfold Rdiv. apply Rmult_lt_compat_r; [now apply Rinv_0_lt_compat |].
    apply Rmult_lt_compat_r; [exact Hd |].
    apply Rmult_lt_compat_l; assumption. }
  pose proof (haaland_below_one water Hrho Hmu diameter roughness Hd Hk v1
                Hrough HRe1) as Ha1.
  pose proof (haaland_below_one water Hrho Hmu diameter roughness Hd Hk v2
                Hrough ltac:(lra)) as Ha2.
  pose proof (haaland_positive water Hrho Hmu diameter roughness Hd Hk v1 Hv1)
    as Hp1.
  pose proof (haaland_positive water Hrho Hmu diameter roughness Hd Hk v2 Hv2)
    as Hp2.
  rewrite (friction_factor_value water Hrho Hmu diameter roughness Hd Hk v1)
    by lra.
  rewrite (friction_factor_value water Hrho Hmu diameter roughness Hd Hk v2)
    by lra.
  eexists. eexists. split; [reflexivity | split; [reflexivity |]].
  set (a1 := Rpower (roughness / (37 / 10 * diameter)) (111 / 100)
             + 69 / 10 / (Water.density water * v1 * diameter
                          / Water.dynamic_viscosity water)) in *.
  set (a2 := Rpower (roughness / (37 / 10 * diameter)) (111 / 100)
             + 69 / 10 / (Water.density water * v2 * diameter
                          / Water.dynamic_viscosity water)) in *.
  assert (Ha21 : a2 < a1).
  { unfold a1, a2. apply Rplus_lt_compat_l.
    unfold Rdiv at 1 3. apply Rmult_lt_compat_l; [lra |].
    apply Rinv_lt_contravar; [now apply Rmult_lt_0_compat | exact HRe12]. }
  assert (Hl10 : 0 < / ln 10).
  { apply Rinv_0_lt_compat. rewrite <- ln_1. apply ln_increasing; lra. }
  assert (Hl1 : ln a1 < 0) by (rewrite <- ln_1; apply ln_increasing; lra).
  assert (Hl21 : ln a2 < ln a1) by (apply ln_increasing; lra).
  set (s1 := - (18 / 10) * (ln a1 / ln 10)).
  set (s2 := - (18 / 10) * (ln a2 / ln 10)).
  assert (Hs1 : 0 < s1) by (unfold s1, Rdiv; nra).
  assert (Hs12 : s1 < s2) by (unfold s1, s2, Rdiv; nra).
  split.
  - apply Rinv_0_lt_compat. nra.
  - apply Rinv_lt_contravar; [| nra].
    apply Rmult_lt_0_compat; nra.
Qed.

Lemma friction_factor_decreasing_in_velocity_witness :
  exists f1 f2,
    friction_factor sample_water (1 / 10) (1 / 1000) 1 = Ok f1
    /\ friction_factor sample_water (1 / 10) (1 / 1000) 2 = Ok f2
    /\ 0 < f2 < f1.
Proof.
  apply (friction_factor_decreasing_in_velocity sample_water
           (1 / 10) (1 / 1000) 1 2);
    cbn [Water.density Water.dynamic_viscosity sample_water]; lra.
Defined.

(** X15.  For a positive diameter and a positive maximal pressure loss,
    every exact root of the residual handed to the root finder is a
    strictly positive velocity (and the residual has a value there only
    for a fluid of positive density). *)
Theorem vel_calculation_root_positive
  (water : Water.t) (diameter roughness max_spec_pressure_loss vel : R) :
  0 < diameter ->
  0 < max_spec_pressure_loss ->
  vel_calculation water diameter roughness max_spec_pressure_loss vel
  = Ok 0 ->
  0 < vel /\ 0 < Water.density water.
Proof.
  intros Hd Hp Hroot.
  apply vel_calculation_inv in Hroot as (f & _ & Hf & Hrho & Hq & Hr).
  assert (Hrho_pos : 0 < Water.density water).
  { destruct (Rdichotomy _ _ Hrho) as [Hneg | Hpos]; [| exact Hpos].
    exfalso.
    assert (Hqneg : 2 * max_spec_pressure_loss * diameter
                    / (f * Water.density water) < 0); [| lra].
    replace (2 * max_spec_pressure_loss * diameter
             / (f * Water.density water))
      with (- (2 * max_spec_pressure_loss * diameter
               * / (f * - Water.density water))) by (field; lra).
    assert (0 < 2 * max_spec_pressure_loss * diameter
                * / (f * - Water.density water)); [| lra].
    apply Rmult_lt_0_compat; [nra |]. apply Rinv_0_lt_compat. nra. }
  split; [| exact Hrho_pos].
  assert (Hqpos : 0 < 2 * max_spec_pressure_loss * diameter
                      / (f * Water.density water))
    by (apply Rdiv_lt_0_compat; nra).
  apply sqrt_lt_R0 in Hqpos. lra.
Qed.

Lemma vel_calculation_root_positive_witness :
  0 < 1 /\ 0 < Water.density sample_water.
Proof.
  apply (vel_calculation_root_positive sample_water (1 / 10) (1 / 1000)
           sample_pressure_loss 1).
  - lra.
  - exact sample_pressure_loss_positive.
  - exact sample_flow_is_root.
Defined.

(** X16.  At zero velocity the residual handed to the root finder has no
    real value, whatever the fluid, the pipe and the pressure loss: the
    Reynolds number is zero (or undefined) and is divided by.  Zero can
    therefore be neither a root nor a usable initial guess. *)
Theorem vel_calculation_undefined_at_rest
  (water : Water.t) (diameter roughness max_spec_pressure_loss : R) :
  ~ is_ok (vel_calculation water diameter roughness
                           max_spec_pressure_loss 0).
Proof.
  intros [r H]. unfold vel_calculation in H.
  apply bind_inv in H as (f & H & _). unfold friction_factor in H.
  apply bind_inv in H as (Re & HRe & H).
  apply bind_inv in H as (rel & _ & H).
  apply bind_inv in H as (rough & _ & H).
  apply bind_inv in H as (visc & Hvisc & _).
  apply py_div_inv in HRe as [_ ->].
  apply py_div_inv in Hvisc as [Hnz _].
  apply Hnz. unfold Rdiv. ring.
Qed.

(** ** Arrays of a catalog whose settings disagree *)

Lemma map_result_length {A B : Type} (f : A -> result B) (xs : list A)
  (ys : list B) :
  map_result f xs = Ok ys -> length ys = length xs.
Proof.
  revert ys. induction xs as [| x xs IH]; intros ys H.
  - injection H as <-. reflexivity.
  - cbn [map_result] in H.
    apply bind_inv in H as (v & _ & H).
    apply bind_inv in H as (vs & Hvs & H).
    injection H as <-. cbn. now rewrite (IH vs Hvs).
Qed.

Lemma map_result_total {A B : Type} (g : A -> B) (xs : list A) :
  map_result (fun x => Ok (g x)) xs = Ok (map g xs).
Proof.
  induction xs as [| x xs IH]; [reflexivity |].
  cbn [map_result bind map]. now rewrite IH.
Qed.

Lemma map_result_Forall {A B : Type} (f : A -> result B) (P : B -> Prop)
  (xs : list A) (ys : list B) :
  (forall x y, f x = Ok y -> P y) ->
  map_result f xs = Ok ys -> Forall P ys.
Proof.
  intros HP. revert ys. induction xs as [| x xs IH]; intros ys H.
  - injection H as <-. constructor.
  - cbn [map_result] in H.
    apply bind_inv in H as (v & Hv & H).
    apply bind_inv in H as (vs & Hvs & H).
    injection H as <-. constructor; [now apply (HP x) | now apply IH].
Qed.

Lemma map_result_ext_in {A B : Type} (f g : A -> result B) (xs : list A) :
  (forall x, In x xs -> f x = g x) -> map_result f xs = map_result g xs.
Proof.
  induction xs as [| x xs IH]; intros H; [reflexivity |].
  cbn [map_result]. rewrite (H x (or_introl eq_refl)).
  rewrite IH by (intros y Hy; apply H; now right). reflexivity.
Qed.

Lemma broadcast_shape_one (n : nat) : broadcast_shape [n] = Ok n.
Proof.
  cbn [broadcast_shape bind].
  destruct (Nat.eqb_spec n 1) as [-> | H]; [reflexivity |].
  cbn. reflexivity.
Qed.

Lemma broadcast_shape_same2 (n : nat) : broadcast_shape [n; n] = Ok n.
Proof.
  change (broadcast_shape [n; n])
    with (m <- broadcast_shape [n] ;;
          if Nat.eqb n m then Ok m
          else if Nat.eqb n 1 then Ok m
          else if Nat.eqb m 1 then Ok n else Err ValueError).
  rewrite broadcast_shape_one. cbn [bind]. now rewrite Nat.eqb_refl.
Qed.

Lemma broadcast_shape_same3 (n : nat) : broadcast_shape [n; n; n] = Ok n.
Proof.
  change (broadcast_shape [n; n; n])
    with (m <- broadcast_shape [n; n] ;;
          if Nat.eqb n m then Ok m
          else if Nat.eqb n 1 then Ok m
          else if Nat.eqb m 1 then Ok n else Err ValueError).
  rewrite broadcast_shape_same2. cbn [bind]. now rewrite Nat.eqb_refl.
Qed.

(** Two lengths above one that differ cannot be broadcast together. *)
Lemma broadcast_shape_mismatch (n m : nat) :
  n <> m -> n <> 1%nat -> m <> 1%nat ->
  broadcast_shape [n; m] = Err ValueError.
Proof.
  intros Hnm Hn Hm.
  change (broadcast_shape [n; m])
    with (k <- broadcast_shape [m] ;;
          if Nat.eqb n k then Ok k
          else if Nat.eqb n 1 then Ok k
          else if Nat.eqb k 1 then Ok n else Err ValueError).
  rewrite broadcast_shape_one. cbn [bind].
  destruct (Nat.eqb_spec n m); [contradiction |].
  destruct (Nat.eqb_spec n 1); [contradiction |].
  destruct (Nat.eqb_spec m 1); [contradiction | reflexivity].
Qed.

Lemma stretched_nth (xs : list R) (i : nat) :
  (i < length xs)%nat -> stretched xs i = nth i xs 0.
Proof.
  intros Hi. destruct xs as [| x [| y rest]]; try reflexivity.
  cbn in Hi. assert (i = 0%nat) as -> by lia. reflexivity.
Qed.

Lemma map_nth_seq_combine {B : Type} (g : R -> R -> B) (xs ys : list R) :
  length xs = length ys ->
  map (fun i => g (nth i xs 0) (nth i ys 0)) (seq 0 (length xs))
  = map (fun xy => g (fst xy) (snd xy)) (combine xs ys).
Proof.
  revert ys. induction xs as [| x xs IH]; intros ys Hlen.
  - reflexivity.
  - destruct ys as [| y ys]; [discriminate |].
    cbn [length seq map combine nth fst snd]. f_equal.
    rewrite <- seq_shift, map_map. apply IH. now injection Hlen.
Qed.

(** Elementwise application to two arrays of the same length. *)
Lemma broadcast2_same_length (g : R -> R -> R) (xs ys : list R) :
  length xs = length ys ->
  broadcast2 (fun x y => Ok (g x y)) xs ys
  = Ok (map (fun xy => g (fst xy) (snd xy)) (combine xs ys)).
Proof.
  intros Hlen. unfold broadcast2. rewrite <- Hlen, broadcast_shape_same2.
  cbn [bind].
  rewrite (map_result_ext_in _ (fun i => Ok (g (nth i xs 0) (nth i ys 0)))).
  - rewrite map_result_total. f_equal. now apply map_nth_seq_combine.
  - intros i Hi. apply in_seq in Hi.
    rewrite !stretched_nth by lia. reflexivity.
Qed.

Lemma array_set_past_end (arr : list R) (i : nat) (v : R) :
  (length arr <= i)%nat -> array_set arr i v = Err IndexError.
Proof.
  revert i. induction arr as [| y rest IH]; intros i Hi; [reflexivity |].
  destruct i as [| i]; [cbn in Hi; lia |].
  cbn [array_set]. rewrite IH by (cbn in Hi; lia). reflexivity.
Qed.

Section SweepEdges.

Variable water : Water.t.
Variable piping : Piping.t.
Variable fsolve : (R -> result R) -> R -> result Fsolve.t.

Local Abbreviation solvable V_INIT diameters :=
  (forall diam, In diam diameters ->
     is_ok (fsolve (vel_calculation water diam (Piping.roughness piping)
                                    (Piping.max_pr_loss piping)) V_INIT)).

(** With fewer array slots left than diameters to go, the sweep ends in
    an [IndexError]. *)
Lemma velocity_sweep_overflow (V_INIT : R) (diameters pre : list R)
  (slots : nat) :
  (slots < length diameters)%nat ->
  solvable V_INIT diameters ->
  velocity_sweep water piping fsolve V_INIT diameters (length pre)
                 (pre ++ np_zeros slots)
  = Err IndexError.
Proof.
  revert pre slots.
  induction diameters as [| diam rest IH]; intros pre slots Hlt Hok.
  - cbn in Hlt. lia.
  - cbn [velocity_sweep]. unfold max_flow_velocity.
    destruct (Hok diam (or_introl eq_refl)) as [solution Hs].
    rewrite Hs. cbn [bind].
    destruct slots as [| slots].
    + rewrite array_set_past_end; [reflexivity |].
      cbn. rewrite app_nil_r. lia.
    + cbn [np_zeros repeat]. rewrite array_set_at. cbn [bind].
      replace (S (length pre)) with (length (pre ++ [Fsolve.x solution]))
        by (rewrite length_app; cbn; lia).
      replace (pre ++ Fsolve.x solution :: repeat 0 slots)
        with ((pre ++ [Fsolve.x solution]) ++ np_zeros slots)
        by (rewrite <- app_assoc; reflexivity).
      apply IH; [cbn in Hlt; lia |].
      intros d Hd. apply Hok. now right.
Qed.

(** The sweep keeps the length of the array it fills. *)
Lemma velocity_sweep_length (V_INIT : R) (diameters : list R) (i : nat)
  (velocity_max result : list R) :
  velocity_sweep water piping fsolve V_INIT diameters i velocity_max
  = Ok result ->
  length result = length velocity_max.
Proof.
  revert i velocity_max.
  induction diameters as [| diam rest IH]; intros i velocity_max H.
  - now injection H as <-.
  - cbn [velocity_sweep] in H.
    apply bind_inv in H as (v & _ & H).
    apply bind_inv in H as (arr & Harr & H).
    rewrite (IH _ _ H). clear H IH.
    revert i arr Harr.
    induction velocity_max as [| y tail IHv]; intros i arr Harr.
    + discriminate.
    + destruct i as [| i]; cbn [array_set] in Harr.
      * now injection Harr as <-.
      * apply bind_inv in Harr as (tail' & Htail & Harr).
        injection Harr as <-. cbn. now rewrite (IHv _ _ Htail).
Qed.

End SweepEdges.

Section SweepResults.

Variable water : Water.t.
Variable piping : Piping.t.
Variable fsolve : (R -> result R) -> R -> result Fsolve.t.

Local Abbreviation solvable V_INIT diameters :=
  (forall diam, In diam diameters ->
     is_ok (fsolve (vel_calculation water diam (Piping.roughness piping)
                                    (Piping.max_pr_loss piping)) V_INIT)).

(** With at least as many array slots as diameters the sweep succeeds. *)
Lemma velocity_sweep_succeeds (V_INIT : R) (diameters pre : list R)
  (slots : nat) :
  (length diameters <= slots)%nat ->
  solvable V_INIT diameters ->
  is_ok (velocity_sweep water piping fsolve V_INIT diameters (length pre)
                        (pre ++ np_zeros slots)).
Proof.
  revert pre slots.
  induction diameters as [| diam rest IH]; intros pre slots Hle Hok.
  - eexists. reflexivity.
  - cbn [velocity_sweep]. unfold max_flow_velocity.
    destruct (Hok diam (or_introl eq_refl)) as [solution Hs].
    rewrite Hs. cbn [bind].
    destruct slots as [| slots]; [cbn in Hle; lia |].
    cbn [np_zeros repeat]. rewrite array_set_at. cbn [bind].
    replace (S (length pre)) with (length (pre ++ [Fsolve.x solution]))
      by (rewrite length_app; cbn; lia).
    replace (pre ++ Fsolve.x solution :: repeat 0 slots)
      with ((pre ++ [Fsolve.x solution]) ++ np_zeros slots)
      by (rewrite <- app_assoc; reflexivity).
    apply IH; [cbn in Hle; lia |].
    intros d Hd. apply Hok. now right.
Qed.

(** A sweep that succeeds has had an answer from every call of the root
    finder. *)
Lemma velocity_sweep_solvable (V_INIT : R) (diameters : list R) (i : nat)
  (velocity_max result : list R) :
  velocity_sweep water piping fsolve V_INIT diameters i velocity_max
  = Ok result ->
  solvable V_INIT diameters.
Proof.
  revert i velocity_max.
  induction diameters as [| diam rest IH]; intros i velocity_max H d Hd.
  - destruct Hd.
  - cbn [velocity_sweep] in H.
    apply bind_inv in H as (v & Hv & H).
    apply bind_inv in H as (arr & _ & H).
    destruct Hd as [<- | Hd].
    + unfold max_flow_velocity in Hv.
      apply bind_inv in Hv as (solution & Hs & _). now exists solution.
    + exact (IH _ _ H d Hd).
Qed.

End SweepResults.

Lemma combine_map_self {A B : Type} (f : A -> B) (xs : list A) :
  combine (map f xs) xs = map (fun x => (f x, x)) xs.
Proof.
  induction xs as [| x xs IH]; [reflexivity |].
  cbn [map combine]. now rewrite IH.
Qed.

(** ** The thermal-capacity regression at its edges *)

(** X17.  When the catalog lists more diameters than [number_diameter]
    says (and the root finder answers every call),
    [regression_thermal_capacity] ends with an [IndexError]: the sweep
    writes past the end of the velocity array. *)
Theorem regression_thermal_capacity_catalog_too_long
  (water : Water.t) (piping : Piping.t)
  (fsolve : (R -> result R) -> R -> result Fsolve.t)
  (linregress : list R -> list R -> result Linregress.t)
  (t_supply t_return : R) :
  (Piping.number_diameter piping < length (Piping.diameter piping))%nat ->
  (forall diam, In diam (Piping.diameter piping) ->
     is_ok (fsolve (vel_calculation water diam (Piping.roughness piping)
                                    (Piping.max_pr_loss piping)) (5 / 10))) ->
  regression_thermal_capacity water piping fsolve linregress
                              t_supply t_return
  = Err IndexError.
Proof.
  intros Hlong Hok. unfold regression_thermal_capacity.
  pose proof (velocity_sweep_overflow water piping fsolve (5 / 10)
                (Piping.diameter piping) [] (Piping.number_diameter piping)
                Hlong Hok) as Hsweep.
  cbn [length app] in Hsweep. rewrite Hsweep. reflexivity.
Qed.

Lemma regression_thermal_capacity_catalog_too_long_witness :
  regression_thermal_capacity
    sample_water
    {| Piping.diameter := [1 / 2; 1];
       Piping.ratio := [4; 2];
       Piping.cost := [500; 800];
       Piping.number_diameter := 1;
       Piping.max_pr_loss := 250;
       Piping.roughness := 1 / 1000;
       Piping.thermal_conductivity := 1 / 40 |}
    (solver_reaching 2) least_squares 80 50
  = Err IndexError.
Proof.
  apply regression_thermal_capacity_catalog_too_long.
  - cbn. lia.
  - intros diam _. eexists. reflexivity.
Defined.

(** X18.  When [number_diameter] exceeds the number of catalog diameters,
    and the catalog has at least two (and the root finder answers every
    call), [regression_thermal_capacity] ends with a [ValueError]: the
    velocity array and the diameters cannot be broadcast together. *)
Theorem regression_thermal_capacity_catalog_too_short
  (water : Water.t) (piping : Piping.t)
  (fsolve : (R -> result R) -> R -> result Fsolve.t)
  (linregress : list R -> list R -> result Linregress.t)
  (t_supply t_return : R) :
  (2 <= length (Piping.diameter piping))%nat ->
  (length (Piping.diameter piping) < Piping.number_diameter piping)%nat ->
  (forall diam, In diam (Piping.diameter piping) ->
     is_ok (fsolve (vel_calculation water diam (Piping.roughness piping)
                                    (Piping.max_pr_loss piping)) (5 / 10))) ->
  regression_thermal_capacity water piping fsolve linregress
                              t_supply t_return
  = Err ValueError.
Proof.
  intros Htwo Hshort Hok. unfold regression_thermal_capacity.
  destruct (velocity_sweep_succeeds water piping fsolve (5 / 10)
              (Piping.diameter piping) [] (Piping.number_diameter piping)
              ltac:(lia) Hok) as [velocity_max Hsweep].
  cbn [length app] in Hsweep. rewrite Hsweep. cbn [bind].
  pose proof (velocity_sweep_length _ _ _ _ _ _ _ _ Hsweep) as Hlen.
  unfold np_zeros in Hlen. rewrite repeat_length in Hlen.
  unfold broadcast2. rewrite Hlen.
  rewrite broadcast_shape_mismatch by lia. reflexivity.
Qed.

Lemma regression_thermal_capacity_catalog_too_short_witness :
  regression_thermal_capacity
    sample_water
    {| Piping.diameter := [1 / 2; 1];
       Piping.ratio := [4; 2];
       Piping.cost := [500; 800];
       Piping.number_diameter := 3;
       Piping.max_pr_loss := 250;
       Piping.roughness := 1 / 1000;
       Piping.thermal_conductivity := 1 / 40 |}
    (solver_reaching 2) least_squares 80 50
  = Err ValueError.
Proof.
  apply regression_thermal_capacity_catalog_too_short.
  - cbn. lia.
  - cbn. lia.
  - intros diam _. eexists. reflexivity.
Defined.

(** X19.  When the catalog has exactly [number_diameter] diameters and
    [regression_thermal_capacity] returns, entry by entry the returned
    mass flow is the mass flow at the velocity the root finder handed back
    for that diameter, the returned power is the pipe capacity of that
    mass flow, and the returned power in kW is a number of three decimals
    within 0.0005 of the power divided by 1000; the part-load factor is
    1. *)
Theorem regression_thermal_capacity_arrays
  (water : Water.t) (piping : Piping.t)
  (fsolve : (R -> result R) -> R -> result Fsolve.t)
  (linregress : list R -> list R -> result Linregress.t)
  (t_supply t_return : R) (r : ThermalCapacity.t) :
  length (Piping.diameter piping) = Piping.number_diameter piping ->
  regression_thermal_capacity water piping fsolve linregress
                              t_supply t_return = Ok r ->
  ThermalCapacity.mass_flow_max r
  = map (fun diam =>
           mass_flow water
             match fsolve (vel_calculation water diam
                             (Piping.roughness piping)
                             (Piping.max_pr_loss piping)) (5 / 10) with
             | Ok solution => Fsolve.x solution
             | Err _ => 0
             end
             diam)
        (Piping.diameter piping)
  /\ ThermalCapacity.power_flow_max r
     = map (fun m => pipe_capacity water m t_supply t_return)
           (ThermalCapacity.mass_flow_max r)
  /\ Forall2 (fun power kW =>
                on_decimal_grid kW 3
                /\ Rabs (kW - power / 1000) <= 1 / 2000)
             (ThermalCapacity.power_flow_max r)
             (ThermalCapacity.power_flow_max_kW r)
  /\ ThermalCapacity.power_flow_max_partload r = 1%Z.
Proof.
  intros Hlen H. unfold regression_thermal_capacity in H.
  apply bind_inv in H as (velocity_max & Hsweep & H).
  apply bind_inv in H as (mass_flow_max & Hmass & H).
  apply bind_inv in H as (regression & _ & H).
  injection H as <-.
  cbn [ThermalCapacity.mass_flow_max ThermalCapacity.power_flow_max
       ThermalCapacity.power_flow_max_kW
       ThermalCapacity.power_flow_max_partload].
  pose proof (velocity_sweep_solvable _ _ _ _ _ _ _ _ Hsweep) as Hok.
  rewrite (velocity_sweep_catalog water piping fsolve (5 / 10) Hlen Hok)
    in Hsweep.
  injection Hsweep as <-.
  rewrite broadcast2_same_length in Hmass by now rewrite length_map.
  injection Hmass as <-.
  rewrite combine_map_self, map_map. cbn [fst snd].
  split; [reflexivity | split; [reflexivity | split; [| reflexivity]]].
  induction (map _ (map _ (Piping.diameter piping))) as [| p ps IH];
    cbn [map]; constructor; [| exact IH].
  split; [apply np_round_on_grid |].
  pose proof (np_round_close (p / 1000) 3) as Hc.
  replace (1 / 2 / 10 ^ 3) with (1 / 2000) in Hc by (simpl; field).
  exact Hc.
Qed.

Lemma regression_thermal_capacity_arrays_witness :
  exists r,
    regression_thermal_capacity sample_water sample_piping
                                (solver_reaching 2) least_squares 80 50
    = Ok r
    /\ ThermalCapacity.mass_flow_max r
       = [mass_flow sample_water 2 (1 / 2); mass_flow sample_water 2 1]
    /\ ThermalCapacity.power_flow_max_partload r = 1%Z.
Proof.
  destruct sample_capacity_regression as (r & Hr).
  exists r. split; [exact Hr |].
  destruct (regression_thermal_capacity_arrays sample_water sample_piping
              (solver_reaching 2) least_squares 80 50 r eq_refl Hr)
    as (Hmass & _ & _ & Hpart).
  split; [exact Hmass | exact Hpart].
Defined.

Lemma zero_capacities (water : Water.t) (T : R) (flows : list R) :
  map (fun p => p / 1000) (map (fun m => pipe_capacity water m T T) flows)
  = repeat 0 (length flows).
Proof.
  induction flows as [| m flows IH]; [reflexivity |].
  cbn [map length repeat]. rewrite IH. f_equal.
  unfold pipe_capacity. field.
Qed.

(** X20.  With equal supply and return temperature, on a catalog of
    exactly [number_diameter] diameters for which the root finder answers
    every call, [regression_thermal_capacity] hands the regression
    abscissas that are all zero, and an error of the regression on such
    data is the error of [regression_thermal_capacity]. *)
Theorem regression_thermal_capacity_equal_temperatures
  (water : Water.t) (piping : Piping.t)
  (fsolve : (R -> result R) -> R -> result Fsolve.t)
  (linregress : list R -> list R -> result Linregress.t)
  (T : R) (e : error) :
  length (Piping.diameter piping) = Piping.number_diameter piping ->
  (forall diam, In diam (Piping.diameter piping) ->
     is_ok (fsolve (vel_calculation water diam (Piping.roughness piping)
                                    (Piping.max_pr_loss piping)) (5 / 10))) ->
  linregress (repeat 0 (Piping.number_diameter piping)) (Piping.cost piping)
  = Err e ->
  regression_thermal_capacity water piping fsolve linregress T T = Err e.
Proof.
  intros Hlen Hok Hreg. unfold regression_thermal_capacity.
  rewrite (velocity_sweep_catalog water piping fsolve (5 / 10) Hlen Hok).
  cbn [bind].
  rewrite broadcast2_same_length by now rewrite length_map.
  cbn [bind]. rewrite zero_capacities.
  rewrite length_map, length_combine, length_map, Nat.min_id, Hlen.
  rewrite Hreg. reflexivity.
Qed.

Lemma regression_thermal_capacity_equal_temperatures_witness :
  regression_thermal_capacity sample_water sample_piping (solver_reaching 2)
                              least_squares 50 50
  = Err ValueError.
Proof.
  apply regression_thermal_capacity_equal_temperatures.
  - reflexivity.
  - intros diam _. eexists. reflexivity.
  - cbn [Piping.number_diameter Piping.cost sample_piping repeat].
    unfold least_squares. cbn [length Nat.eqb negb map combine fst snd].
    rewrite Reqb_true; [reflexivity |].
    unfold mean, Rsum. cbn [length fold_right map INR]. field.
Defined.

(** ** The heat-loss regression at its edges *)

Lemma heat_loss_pipe_equal_temperatures
  (water : Water.t) (m L T Rp loss : R) :
  heat_loss_pipe water m L T Rp T = Ok loss -> loss = 0.
Proof.
  unfold heat_loss_pipe. intros H.
  apply bind_inv in H as (q & _ & H).
  cbn [bind np_exp] in H.
  apply py_div_inv in H as [HL ->]. field. exact HL.
Qed.

(** X21.  With the supply temperature equal to the ambient temperature,
    every heat loss returned by [regression_heat_losses] is zero. *)
Theorem regression_heat_losses_equal_temperatures
  (water : Water.t) (ground : Ground.t) (piping : Piping.t)
  (linregress : list R -> list R -> result Linregress.t)
  (T : R) (thermal_capacity : ThermalCapacity.t) (r : HeatLosses.t) :
  regression_heat_losses water ground piping linregress T T thermal_capacity
  = Ok r ->
  Forall (fun loss => loss = 0) (HeatLosses.heat_loss r).
Proof.
  intros H. unfold regression_heat_losses in H.
  apply bind_inv in H as (res_pipe & _ & H).
  apply bind_inv in H as (heat_loss & Hloss & H).
  apply bind_inv in H as (regression & _ & H).
  injection H as <-. cbn [HeatLosses.heat_loss].
  unfold broadcast3 in Hloss.
  apply bind_inv in Hloss as (n & _ & Hloss).
  eapply map_result_Forall; [| exact Hloss].
  intros i loss Hi. cbv beta in Hi.
  exact (heat_loss_pipe_equal_temperatures _ _ _ _ _ _ Hi).
Qed.

Lemma regression_heat_losses_equal_temperatures_witness :
  exists r,
    regression_heat_losses sample_water sample_ground sample_piping
                           least_squares 80 80 sample_capacity = Ok r
    /\ Forall (fun loss => loss = 0) (HeatLosses.heat_loss r).
Proof.
  destruct sample_resistances as (u & [Hu1 Hu2] & HR1 & HR2).
  assert (Hcp : Water.heat_capacity_cp sample_water <> 0) by (cbn; lra).
  pose proof (heat_loss_pipe_value sample_water Hcp 100 (100 * 1) 80 80
                ltac:(lra) ltac:(lra) (u * (402 / 5)) ltac:(lra)) as Hh1.
  pose proof (heat_loss_pipe_value sample_water Hcp 1000 (100 * 1) 80 80
                ltac:(lra) ltac:(lra) (u * (202 / 5)) ltac:(lra)) as Hh2.
  assert (Hx : pipe_capacity sample_water 100 80 50 / 1000
               <> pipe_capacity sample_water 1000 80 50 / 1000)
    by (unfold pipe_capacity; cbn [Water.heat_capacity_cp sample_water]; lra).
  destruct (least_squares_two_points _ _
              ((80 - 80) / (100 * 1)
               * (100 * Water.heat_capacity_cp sample_water
                  - 100 * Water.heat_capacity_cp sample_water
                    * exp (- (100 * 1)
                           / (100 * Water.heat_capacity_cp sample_water
                              * (u * (402 / 5))))) / 1000)
              ((80 - 80) / (100 * 1)
               * (1000 * Water.heat_capacity_cp sample_water
                  - 1000 * Water.heat_capacity_cp sample_water
                    * exp (- (100 * 1)
                           / (1000 * Water.heat_capacity_cp sample_water
                              * (u * (202 / 5))))) / 1000)
              Hx) as (reg & Hreg & _).
  eexists. split.
  - eapply regression_heat_losses_two_pipes with (regression := reg);
      try reflexivity; eassumption.
  - apply (regression_heat_losses_equal_temperatures sample_water
             sample_ground sample_piping least_squares 80 sample_capacity).
    eapply regression_heat_losses_two_pipes with (regression := reg);
      try reflexivity; eassumption.
Defined.

(** X22.  When the catalog's diameters and ratios and the mass flows
    handed over all have [number_diameter] entries and
    [regression_heat_losses] returns, it returns exactly one heat loss per
    diameter. *)
Theorem regression_heat_losses_length
  (water : Water.t) (ground : Ground.t) (piping : Piping.t)
  (linregress : list R -> list R -> result Linregress.t)
  (t_supply t_ambient : R) (thermal_capacity : ThermalCapacity.t)
  (r : HeatLosses.t) :
  length (Piping.diameter piping) = Piping.number_diameter piping ->
  length (Piping.ratio piping) = Piping.number_diameter piping ->
  length (ThermalCapacity.mass_flow_max thermal_capacity)
  = Piping.number_diameter piping ->
  regression_heat_losses water ground piping linregress t_supply t_ambient
                         thermal_capacity = Ok r ->
  length (HeatLosses.heat_loss r) = Piping.number_diameter piping.
Proof.
  intros Hd Hq Hm H. unfold regression_heat_losses in H.
  apply bind_inv in H as (res_pipe & Hres & H).
  apply bind_inv in H as (heat_loss & Hloss & H).
  apply bind_inv in H as (regression & _ & H).
  injection H as <-. cbn [HeatLosses.heat_loss].
  unfold broadcast3 in Hres, Hloss.
  unfold np_ones in Hres, Hloss.
  rewrite Hd, Hq, repeat_length, broadcast_shape_same3 in Hres.
  cbn [bind] in Hres. apply map_result_length in Hres.
  rewrite length_seq in Hres.
  rewrite Hm, length_map, repeat_length, Hres, broadcast_shape_same3 in Hloss.
  cbn [bind] in Hloss. apply map_result_length in Hloss.
  now rewrite length_seq in Hloss.
Qed.

Lemma regression_heat_losses_length_witness :
  exists r,
    regression_heat_losses sample_water sample_ground sample_piping
                           least_squares 80 10 sample_capacity = Ok r
    /\ length (HeatLosses.heat_loss r) = 2%nat.
Proof.
  destruct sample_heat_loss_regression as (r & Hr & _).
  exists r. split; [exact Hr |].
  exact (regression_heat_losses_length sample_water sample_ground
           sample_piping least_squares 80 10 sample_capacity r
           eq_refl eq_refl eq_refl Hr).
Defined.

(** ** Heat losses of a catalog of buried, insulated pipes *)

Lemma map_result_Forall_in {A B : Type} (f : A -> result B) (P : B -> Prop)
  (xs : list A) (ys : list B) :
  (forall x y, In x xs -> f x = Ok y -> P y) ->
  map_result f xs = Ok ys -> Forall P ys.
Proof.
  revert ys. induction xs as [| x xs IH]; intros ys HP H.
  - injection H as <-. constructor.
  - cbn [map_result] in H.
    apply bind_inv in H as (v & Hv & H).
    apply bind_inv in H as (vs & Hvs & H).
    injection H as <-. constructor.
    + apply (HP x); [now left | exact Hv].
    + apply IH; [| exact Hvs]. intros z y Hz. apply HP. now right.
Qed.

(** Entry [i] of the result is the function applied to entry [i]. *)
Lemma map_result_nth {B : Type} (f : nat -> result B) (n : nat)
  (ys : list B) (d : B) (i : nat) :
  map_result f (seq 0 n) = Ok ys ->
  (i < n)%nat ->
  f i = Ok (nth i ys d).
Proof.
  intros H Hi.
  assert (Hgen : forall k start zs,
             map_result f (seq start k) = Ok zs ->
             forall j, (j < k)%nat -> f (start + j)%nat = Ok (nth j zs d)).
  { clear. induction k as [| k IH]; intros start zs H j Hj; [lia |].
    cbn [seq map_result] in H.
    apply bind_inv in H as (v & Hv & H).
    apply bind_inv in H as (vs & Hvs & H).
    injection H as <-. destruct j as [| j].
    - rewrite Nat.add_0_r. exact Hv.
    - cbn [nth]. rewrite <- Nat.add_succ_comm. apply IH; [exact Hvs | lia]. }
  exact (Hgen n 0%nat ys H i Hi).
Qed.

Lemma nth_repeat_lt (a : R) (n i : nat) :
  (i < n)%nat -> nth i (repeat a n) 0 = a.
Proof.
  revert i. induction n as [| n IH]; intros i Hi; [lia |].
  destruct i as [| i]; [reflexivity |]. cbn. apply IH. lia.
Qed.

Lemma Forall2_nth_lt (P : R -> R -> Prop) (xs ys : list R) (i : nat) :
  Forall2 P xs ys -> (i < length xs)%nat -> P (nth i xs 0) (nth i ys 0).
Proof.
  intros H. revert i. induction H as [| x y xs ys Hxy _ IH]; intros i Hi.
  - cbn in Hi. lia.
  - destruct i as [| i]; [exact Hxy |]. cbn. apply IH. cbn in Hi. lia.
Qed.

Lemma Forall_nth_lt (P : R -> Prop) (xs : list R) (i : nat) :
  Forall P xs -> (i < length xs)%nat -> P (nth i xs 0).
Proof.
  intros H Hi. rewrite Forall_forall in H. apply H. now apply nth_In.
Qed.

Lemma thermal_resistance_positive
  (ground : Ground.t) (piping : Piping.t) (diameter diameter_ratio depth r : R) :
  0 < Ground.thermal_conductivity ground ->
  0 < Piping.thermal_conductivity piping ->
  0 < diameter ->
  1 <= diameter_ratio ->
  diameter * diameter_ratio < 4 * depth ->
  thermal_resistance ground piping diameter diameter_ratio depth = Ok r ->
  0 < r.
Proof.
  intros Hkg Hki Hd Hq Hz H.
  assert (Ho : 0 < diameter * diameter_ratio) by (apply Rmult_lt_0_compat; lra).
  rewrite (thermal_resistance_value ground piping) in H by lra.
  injection H as <-.
  pose proof pi_bounds as [Hpi _].
  assert (Hig : 0 < / (2 * PI * Ground.thermal_conductivity ground))
    by (apply Rinv_0_lt_compat; apply Rmult_lt_0_compat; lra).
  assert (Hii : 0 < / (2 * PI * Piping.thermal_conductivity piping))
    by (apply Rinv_0_lt_compat; apply Rmult_lt_0_compat; lra).
  assert (Hli : 0 <= ln diameter_ratio).
  { destruct Hq as [Hq | <-]; [| rewrite ln_1; lra].
    left. rewrite <- ln_1. apply ln_increasing; lra. }
  assert (Hq1 : 1 < 4 * depth / (diameter * diameter_ratio)).
  { apply (Rmult_lt_reg_r (diameter * diameter_ratio)); [exact Ho |].
    unfold Rdiv. rewrite Rmult_assoc, Rinv_l by lra. lra. }
  assert (Hl1 : 0 < ln (4 * depth / (diameter * diameter_ratio)))
    by (rewrite <- ln_1; apply ln_increasing; lra).
  unfold Rdiv at 1 2. nra.
Qed.

(** X23.  For positive heat capacity and conductivities, a catalog of
    [number_diameter] pipes each with positive diameter, a diameter ratio
    of at least one and an outer diameter below 4 m (four times the fixed
    burial depth of 1 m), positive mass flows, and a supply temperature
    above the ambient temperature, every heat loss returned by
    [regression_heat_losses] is strictly positive. *)
Theorem regression_heat_losses_positive
  (water : Water.t) (ground : Ground.t) (piping : Piping.t)
  (linregress : list R -> list R -> result Linregress.t)
  (t_supply t_ambient : R) (thermal_capacity : ThermalCapacity.t)
  (r : HeatLosses.t) :
  0 < Water.heat_capacity_cp water ->
  0 < Ground.thermal_conductivity ground ->
  0 < Piping.thermal_conductivity piping ->
  length (Piping.diameter piping) = Piping.number_diameter piping ->
  length (ThermalCapacity.mass_flow_max thermal_capacity)
  = Piping.number_diameter piping ->
  Forall2 (fun diameter diameter_ratio =>
             0 < diameter /\ 1 <= diameter_ratio
             /\ diameter * diameter_ratio < 4)
          (Piping.diameter piping) (Piping.ratio piping) ->
  Forall (fun flow => 0 < flow)
         (ThermalCapacity.mass_flow_max thermal_capacity) ->
  t_ambient < t_supply ->
  regression_heat_losses water ground piping linregress t_supply t_ambient
                         thermal_capacity = Ok r ->
  Forall (fun loss => 0 < loss) (HeatLosses.heat_loss r).
Proof.
  intros Hcp Hkg Hki Hd Hm Hpipes Hflows HT H.
  pose proof (Forall2_length Hpipes) as Hq. rewrite Hd in Hq.
  set (n := Piping.number_diameter piping) in *.
  unfold regression_heat_losses in H. fold n in H.
  apply bind_inv in H as (res_pipe & Hres & H).
  apply bind_inv in H as (heat_loss & Hloss & H).
  apply bind_inv in H as (regression & _ & H).
  injection H as <-. cbn [HeatLosses.heat_loss].
  unfold broadcast3, np_ones in Hres, Hloss.
  rewrite Hd, <- Hq, repeat_length, broadcast_shape_same3 in Hres.
  cbn [bind] in Hres.
  pose proof (map_result_length _ _ _ Hres) as Hlen.
  rewrite length_seq in Hlen.
  rewrite Hm, length_map, repeat_length, Hlen, broadcast_shape_same3 in Hloss.
  cbn [bind] in Hloss.
  eapply map_result_Forall_in; [| exact Hloss].
  intros i loss Hi Hvalue. cbv beta in Hvalue.
  apply in_seq in Hi. assert (Hin : (i < n)%nat) by lia.
  pose proof (map_result_nth _ _ _ 0 i Hres Hin) as Hri. cbv beta in Hri.
  rewrite !stretched_nth in Hri by (try rewrite repeat_length; lia).
  rewrite nth_repeat_lt in Hri by exact Hin.
  pose proof (Forall2_nth_lt _ _ _ i Hpipes ltac:(lia)) as (Hdi & Hqi & Hoi).
  assert (Hoi1 : nth i (Piping.diameter piping) 0
                 * nth i (Piping.ratio piping) 0 < 4 * 1) by lra.
  pose proof (thermal_resistance_positive ground piping _ _ _ _
                Hkg Hki Hdi Hqi Hoi1 Hri) as Hrpos.
  rewrite !stretched_nth in Hvalue
    by (try rewrite length_map; try rewrite repeat_length; lia).
  pose proof (Forall_nth_lt _ _ i Hflows ltac:(lia)) as Hmi.
  assert (HL : nth i (map (fun o : R => 100 * o) (repeat 1 n)) 0 = 100 * 1).
  { rewrite <- (nth_repeat_lt 1 n i Hin) at 2.
    replace 0 with ((fun o : R => 100 * o) 0) at 1 by (cbv beta; ring).
    apply map_nth. }
  rewrite HL in Hvalue.
  rewrite (heat_loss_pipe_proportional water Hcp _ (100 * 1) Hmi
             ltac:(lra) t_supply t_ambient _ Hrpos) in Hvalue.
  injection Hvalue as <-.
  pose proof (loss_factor_bounds water Hcp _ (100 * 1) Hmi ltac:(lra)
                _ Hrpos) as [Hlo _].
  apply Rmult_lt_0_compat; lra.
Qed.

Lemma regression_heat_losses_positive_witness :
  exists r,
    regression_heat_losses sample_water sample_ground sample_piping
                           least_squares 80 10 sample_capacity = Ok r
    /\ Forall (fun loss => 0 < loss) (HeatLosses.heat_loss r).
Proof.
  destruct sample_heat_loss_regression as (r & Hr & _).
  exists r. split; [exact Hr |].
  apply (regression_heat_losses_positive sample_water sample_ground
           sample_piping least_squares 80 10 sample_capacity r);
    cbn [Water.heat_capacity_cp Ground.thermal_conductivity
         Piping.thermal_conductivity Piping.diameter Piping.ratio
         Piping.number_diameter ThermalCapacity.mass_flow_max
         sample_water sample_ground sample_piping sample_capacity];
    try lra; try reflexivity; try exact Hr.
  - repeat constructor; lra.
  - repeat constructor; lra.
Defined.
